(** * Word-level transcription pipeline (transcribe_audio.py)

    A shallow embedding of the script: the Python values it handles, the
    Transcript Formatter [convert_to_json_format], the Clip Extractor
    [extract_first_60_seconds], the JSON writer it calls and the Run
    Orchestrator [main], followed by the properties of each. *)

From Stdlib Require Import ZArith NArith List String Ascii PrimFloat Lia.
From Stdlib Require Import Sorting.Sorted DecimalString.
From stdpp Require Import base option list sorting gmap strings.
Import ListNotations.

Set Warnings "-inexact-float,-register-all".
Local Open Scope N_scope.

(** ** Python values *)

(** A Python [str] is a sequence of Unicode code points. *)
Abbreviation pystr := (list N).

(** An ASCII literal of the source as a Python [str]. *)
Definition lit (s : string) : pystr :=
  map N_of_ascii (list_ascii_of_string s).
Arguments lit s%_string : simpl never.

(** The values that flow through the script.  A [dict] keeps its insertion
    order, so it is an association list; [PyObj] stands for an object of any
    other class (it has no [get], no [strip], it is neither iterable nor
    subscriptable, and the JSON encoder does not know it). *)
Inductive pyval : Type :=
| PyNone
| PyBool (b : bool)
| PyInt (n : Z)
| PyFloat (x : float)
| PyStr (s : pystr)
| PyList (l : list pyval)
| PyDict (d : list (pystr * pyval))
| PyObj (cls : string).

Inductive pyexc : Type :=
| KeyError (key : pystr)
| AttributeError
| TypeError
| ValueError
| OverflowError
| UnicodeEncodeError
| UnicodeDecodeError
| OSError
| FileNotFoundError
| Exception_ (msg : pystr).

(** ** Results of fallible code *)

Inductive result (A : Type) : Type :=
| Ok (a : A)
| Raise (e : pyexc).
Arguments Ok {A} a.
Arguments Raise {A} e.

Definition bind {A B : Type} (m : result A) (k : A -> result B) : result B :=
  match m with
  | Ok a => k a
  | Raise e => Raise e
  end.

Declare Scope py_scope.
Delimit Scope py_scope with py.
Notation "x <~ m ;; k" := (bind m (fun x => k))
  (at level 100, m at next level, right associativity) : py_scope.
Local Open Scope py_scope.

(** ** Built-in operations *)

Fixpoint assoc (k : pystr) (d : list (pystr * pyval)) : option pyval :=
  match d with
  | [] => None
  | (k', v) :: d' => if bool_decide (k' = k) then Some v else assoc k d'
  end.

(** [o.get(k, dflt)] *)
Definition py_get (o : pyval) (k : pystr) (dflt : pyval) : result pyval :=
  match o with
  | PyDict d => Ok (default dflt (assoc k d))
  | _ => Raise AttributeError
  end.

(** [o[k]] for a [str] subscript [k] *)
Definition py_getitem (o : pyval) (k : pystr) : result pyval :=
  match o with
  | PyDict d =>
      match assoc k d with
      | Some v => Ok v
      | None => Raise (KeyError k)
      end
  | _ => Raise TypeError
  end.

(** The items a [for] loop over [o] visits. *)
Definition py_iter (o : pyval) : result (list pyval) :=
  match o with
  | PyList l => Ok l
  | PyDict d => Ok (map (fun kv => PyStr (fst kv)) d)
  | PyStr s => Ok (map (fun c => PyStr [c]) s)
  | _ => Raise TypeError
  end.

(** [str.isspace] on one code point (CPython's [_PyUnicode_IsWhitespace]). *)
Definition isspace (c : N) : bool :=
  ((0x09 <=? c) && (c <=? 0x0D)) || ((0x1C <=? c) && (c <=? 0x20))
  || (c =? 0x85) || (c =? 0xA0) || (c =? 0x1680)
  || ((0x2000 <=? c) && (c <=? 0x200A))
  || (c =? 0x2028) || (c =? 0x2029) || (c =? 0x202F) || (c =? 0x205F)
  || (c =? 0x3000).

Fixpoint lstrip (s : pystr) : pystr :=
  match s with
  | [] => []
  | c :: s' => if isspace c then lstrip s' else s
  end.

Definition rstrip (s : pystr) : pystr := rev (lstrip (rev s)).

Definition strip (s : pystr) : pystr := rstrip (lstrip s).

(** [o.strip()] *)
Definition py_strip (o : pyval) : result pyval :=
  match o with
  | PyStr s => Ok (PyStr (strip s))
  | _ => Raise AttributeError
  end.

(** A [for] loop whose body updates one local and may raise. *)
Fixpoint for_each {S : Type} (items : list pyval)
    (body : pyval -> S -> result S) (s : S) : result S :=
  match items with
  | [] => Ok s
  | x :: rest => s' <~ body x s ;; for_each rest body s'
  end.

(** ** Transcript Formatter *)

(** The dict display appended for one [word_info]; its three values are
    evaluated in the order written. *)
Definition word_record (word_info : pyval) : result pyval :=
  w <~ py_getitem word_info (lit "word") ;;
  w' <~ py_strip w ;;
  s <~ py_getitem word_info (lit "start") ;;
  e <~ py_getitem word_info (lit "end") ;;
  Ok (PyDict [(lit "word", w'); (lit "start", s); (lit "end", e)]).

Definition segment_loop (segment : pyval) (words : list pyval)
  : result (list pyval) :=
  ws <~ py_get segment (lit "words") (PyList []) ;;
  word_infos <~ py_iter ws ;;
  for_each word_infos
    (fun word_info words => r <~ word_record word_info ;; Ok (words ++ [r]))
    words.

Definition convert_to_json_format (whisper_result : pyval) : result pyval :=
  segs <~ py_get whisper_result (lit "segments") (PyList []) ;;
  segments <~ py_iter segs ;;
  words <~ for_each segments segment_loop [] ;;
  Ok (PyDict [(lit "words", PyList words)]).

(** ** The engine's result, read as the specification describes it *)

Record word_entry : Type := WordEntry {
  we_word : pystr;
  we_start : pyval;
  we_end : pyval
}.

(** [v] is a word entry carrying [w] (other keys may be present). *)
Definition is_entry (v : pyval) (w : word_entry) : Prop :=
  exists d, v = PyDict d
    /\ assoc (lit "word") d = Some (PyStr (we_word w))
    /\ assoc (lit "start") d = Some (we_start w)
    /\ assoc (lit "end") d = Some (we_end w).

Definition is_segment (v : pyval) (ws : list word_entry) : Prop :=
  exists d l, v = PyDict d
    /\ assoc (lit "words") d = Some (PyList l)
    /\ Forall2 is_entry l ws.

Definition is_result (v : pyval) (segs : list (list word_entry)) : Prop :=
  exists d l, v = PyDict d
    /\ assoc (lit "segments") d = Some (PyList l)
    /\ Forall2 is_segment l segs.

(** A Word record and a Transcript of the output schema. *)
Definition Word (w : word_entry) : pyval :=
  PyDict [(lit "word", PyStr (strip (we_word w)));
          (lit "start", we_start w); (lit "end", we_end w)].

Definition Transcript (words : list pyval) : pyval :=
  PyDict [(lit "words", PyList words)].

(** ** The JSON encoder ([json.dump] with [indent=2], other options default) *)

Definition hexdigit (d : N) : N := if d <? 10 then 48 + d else 87 + d.

(** ['{0:04x}'.format(n)], for the [n < 0x10000] it is called with. *)
Definition hex4 (n : N) : pystr :=
  [hexdigit (n / 4096); hexdigit (n / 256 mod 16);
   hexdigit (n / 16 mod 16); hexdigit (n mod 16)].

(** The replacement of one code point matched by [ESCAPE_ASCII], that is
    of a backslash, a double quote, or anything outside [' '..'~']. *)
Definition escape_char (c : N) : pystr :=
  if c =? 92 then lit "\\"
  else if c =? 34 then [92; 34]
  else if c =? 8 then lit "\b"
  else if c =? 12 then lit "\f"
  else if c =? 10 then lit "\n"
  else if c =? 13 then lit "\r"
  else if c =? 9 then lit "\t"
  else if c <? 0x10000 then lit "\u" ++ hex4 c
  else
    let n := c - 0x10000 in
    let s1 := N.lor 0xd800 (N.land (N.shiftr n 10) 0x3ff) in
    let s2 := N.lor 0xdc00 (N.land n 0x3ff) in
    lit "\u" ++ hex4 s1 ++ lit "\u" ++ hex4 s2.

Definition encode_char (c : N) : pystr :=
  if (c =? 92) || (c =? 34) || negb ((32 <=? c) && (c <=? 126))
  then escape_char c else [c].

(** [encode_basestring_ascii], the [_encoder] under [ensure_ascii=True]. *)
Definition encode_basestring_ascii (s : pystr) : pystr :=
  [34] ++ flat_map encode_char s ++ [34].

(** [int.__repr__] *)
Definition intstr (n : Z) : pystr := lit (NilZero.string_of_int (Z.to_int n)).

(** What a generator has yielded, and the exception that ended it if one
    did. *)
Definition chunks : Type := pystr * option pyexc.

Definition yield (s : pystr) : chunks := (s, None).

Definition then_ (a b : chunks) : chunks :=
  match a with
  | (s, None) => (s ++ fst b, snd b)
  | (s, Some e) => (s, Some e)
  end.

(** ['\n' + ' ' * (2 * level)] *)
Definition newline_indent (level : nat) : pystr := 10 :: repeat 32 (2 * level)%nat.

Section Encoder.
(** [float.__repr__], the shortest decimal that reads back as the float,
    is the interpreter's and is taken as given. *)
Variable float_repr : float -> pystr.

(** [floatstr] under [allow_nan=True] *)
Definition floatstr (o : float) : pystr :=
  if negb (PrimFloat.eqb o o) then lit "NaN"
  else if PrimFloat.eqb o infinity then lit "Infinity"
  else if PrimFloat.eqb o neg_infinity then lit "-Infinity"
  else float_repr o.

(** [_iterencode], with [_iterencode_list] and [_iterencode_dict] inlined;
    the chunks are concatenated.  The interpreter's limits are left out:
    the recursion limit, which values nested about a thousand deep reach,
    and the limit on the digits of an [int] turned into text. *)
Fixpoint iterencode (o : pyval) (level : nat) {struct o} : chunks :=
  match o with
  | PyStr s => yield (encode_basestring_ascii s)
  | PyNone => yield (lit "null")
  | PyBool true => yield (lit "true")
  | PyBool false => yield (lit "false")
  | PyInt n => yield (intstr n)
  | PyFloat x => yield (floatstr x)
  | PyList [] => yield (lit "[]")
  | PyList l =>
      let fix items (first : bool) (l : list pyval) : chunks :=
        match l with
        | [] => yield []
        | value :: rest =>
            then_ (yield ((if first then lit "[" else lit ",")
                            ++ newline_indent (S level)))
              (then_ (iterencode value (S level)) (items false rest))
        end in
      then_ (items true l) (yield (newline_indent level ++ lit "]"))
  | PyDict [] => yield (lit "{}")
  | PyDict d =>
      let fix items (first : bool) (d : list (pystr * pyval)) : chunks :=
        match d with
        | [] => yield []
        | (key, value) :: rest =>
            then_ (yield ((if first then lit "{" else lit ",")
                            ++ newline_indent (S level)
                            ++ encode_basestring_ascii key ++ lit ": "))
              (then_ (iterencode value (S level)) (items false rest))
        end in
      then_ (items true d) (yield (newline_indent level ++ lit "}"))
  | PyObj _ => ([], Some TypeError)
  end.
End Encoder.

(** ** The process's surroundings *)

Abbreviation content := (list N).
Abbreviation filesys := (gmap string content).

(** A finished child process, with what it left at its destination path
    ([None]: the path was not touched). *)
Record CompletedProcess : Type := mkProc {
  returncode : Z;
  stderr : pystr;
  wrote : option content
}.

(** How [subprocess.run] ends: with the finished process, or with an
    exception, raised before the tool starts (it is not installed) or after
    it has run (its output cannot be decoded as text), so that the tool may
    have written its destination in this case too. *)
Inductive spawn : Type :=
| Completed (p : CompletedProcess)
| SpawnError (e : pyexc) (left : option content).

(** Everything the script does not define itself.  The media tool is a
    function of its command line and of the content of its [-i] file; the
    recognition engine is a function of the clip. *)
Record env : Type := mkEnv {
  ffmpeg : list string -> option content -> spawn;
  load_model : option pyexc;
  transcribe : option content -> result pyval;
  float_repr : float -> pystr;
  can_open : bool;
  disk_room : option nat
}.

Inductive message : Type :=
| MsgExtracting (path : string)
| MsgCopyFailed
| MsgSavedTo (path : string)
| MsgLoading
| MsgTranscribing (path : string)
| MsgMayTakeAMinute
| MsgNotFound (path : string)
| MsgMakeSure
| MsgSaving (path : string)
| MsgSuccess (word_count : nat)
| MsgSaved (path : string)
| MsgFirstFew
| MsgPreview (word start end_ : pyval)
| MsgCleanedUp.

Inductive event : Type :=
| Print (m : message)
| Subprocess (cmd : list string)
| LoadModel (name : string)
| Transcribe (path : string)
| OpenW (path : string)
| Remove (path : string).

(** ** Effectful code: a file system threaded through, events emitted,
    exceptions raised *)

Definition M (A : Type) : Type := filesys -> result A * filesys * list event.

Definition ret {A : Type} (a : A) : M A := fun fs => (Ok a, fs, []).

Definition raise {A : Type} (e : pyexc) : M A := fun fs => (Raise e, fs, []).

Definition mbind {A B : Type} (m : M A) (k : A -> M B) : M B :=
  fun fs =>
    match m fs with
    | (Ok a, fs1, ev1) =>
        match k a fs1 with
        | (r, fs2, ev2) => (r, fs2, ev1 ++ ev2)
        end
    | (Raise e, fs1, ev1) => (Raise e, fs1, ev1)
    end.

Declare Scope io_scope.
Delimit Scope io_scope with io.
Notation "x <- m ;; k" := (mbind m (fun x => k))
  (at level 100, m at next level, right associativity) : io_scope.
Notation "m ;;; k" := (mbind m (fun _ => k))
  (at level 100, right associativity) : io_scope.

Definition lift {A : Type} (r : result A) : M A := fun fs => (r, fs, []).

(** A [str] with a surrogate code point cannot be encoded as UTF-8. *)
Definition has_surrogate (s : pystr) : bool :=
  existsb (fun c => (0xD800 <=? c) && (c <=? 0xDFFF)) s.

(** Standard output is taken to be UTF-8, which the script's own lines
    need.  All the text printed is the script's, but for the word of a
    preview line: printing raises [UnicodeEncodeError] when that word holds
    a surrogate. *)
Definition printable (m : message) : bool :=
  match m with
  | MsgPreview (PyStr w) _ _ => negb (has_surrogate w)
  | _ => true
  end.

Definition print (m : message) : M unit :=
  fun fs =>
    if printable m then (Ok tt, fs, [Print m])
    else (Raise UnicodeEncodeError, fs, []).

Local Open Scope io_scope.
Local Open Scope string_scope.
Local Open Scope list_scope.

(** [os.path.exists(path)] *)
Definition path_exists (path : string) : M bool :=
  fun fs => (Ok (bool_decide (is_Some (fs !! path))), fs, []).

(** [os.remove(path)] of a file that is there. *)
Definition os_remove (path : string) : M unit :=
  fun fs => (Ok tt, delete path fs, [Remove path]).

(** [subprocess.run(cmd, capture_output=True, text=True)] for a command line
    [ffmpeg -i INPUT ... OUTPUT]: the tool reads the third argument and
    leaves its output at the last one. *)
Definition put (path : string) (w : option content) (fs : filesys) : filesys :=
  match w with
  | Some c => <[path := c]> fs
  | None => fs
  end.

Definition subprocess_run (e : env) (cmd : list string) : M CompletedProcess :=
  fun fs =>
    match ffmpeg e cmd (fs !! nth 2 cmd "") with
    | Completed p => (Ok p, put (List.last cmd "") (wrote p) fs, [Subprocess cmd])
    | SpawnError x w => (Raise x, put (List.last cmd "") w fs, [Subprocess cmd])
    end.

(** ** Clip Extractor *)

Definition copy_cmd (audio_path output_path : string) : list string :=
  ["ffmpeg"; "-i"; audio_path; "-t"; "60"; "-acodec"; "copy"; "-y"; output_path].

Definition reencode_cmd (audio_path output_path : string) : list string :=
  ["ffmpeg"; "-i"; audio_path; "-t"; "60"; "-acodec"; "libmp3lame"; "-y"; output_path].

Definition extract_first_60_seconds (e : env) (audio_path output_path : string)
  : M string :=
  print (MsgExtracting audio_path) ;;;
  result <- subprocess_run e (copy_cmd audio_path output_path) ;;
  (if negb (returncode result =? 0)%Z then
     print MsgCopyFailed ;;;
     result <- subprocess_run e (reencode_cmd audio_path output_path) ;;
     if negb (returncode result =? 0)%Z
     then raise (Exception_ (lit "ffmpeg failed: " ++ stderr result))
     else ret tt
   else ret tt) ;;;
  print (MsgSavedTo output_path) ;;;
  ret output_path.

(** ** Transcription Engine *)

(** [whisper.load_model(name)].  The file system of the model holds the
    files the script names; the cache in which the engine keeps the
    weights it downloads is not part of it. *)
Definition whisper_load_model (e : env) (name : string) : M unit :=
  fun fs =>
    (match load_model e with Some x => Raise x | None => Ok tt end,
     fs, [LoadModel name]).

(** [model.transcribe(audio_path, word_timestamps=True, language="en")] *)
Definition model_transcribe (e : env) (audio_path : string) : M pyval :=
  fun fs => (transcribe e (fs !! audio_path), fs, [Transcribe audio_path]).

Definition transcribe_audio (e : env) (audio_path : string) : M pyval :=
  print MsgLoading ;;;
  whisper_load_model e "base" ;;;
  print (MsgTranscribing audio_path) ;;;
  print MsgMayTakeAMinute ;;;
  result <- model_transcribe e audio_path ;;
  ret result.

(** ** Writing the output *)

(** [json.dump(obj, f, indent=2)] into a file just opened: what reaches the
    file, and the exception if one is raised.  When the text does not fit
    in the room the device has left, what fits is written and the write
    fails. *)
Definition json_dump (e : env) (obj : pyval) : chunks :=
  let out := iterencode (float_repr e) obj 0 in
  match disk_room e with
  | Some room =>
      if (room <? length (fst out))%nat
      then (take room (fst out), Some OSError)
      else out
  | None => out
  end.

(** [with open(path, 'w') as f: json.dump(obj, f, indent=2)]: opening
    truncates the file, leaving the block closes it. *)
Definition write_json (e : env) (path : string) (obj : pyval) : M unit :=
  fun fs =>
    if can_open e then
      let out := json_dump e obj in
      (match snd out with Some x => Raise x | None => Ok tt end,
       <[path := fst out]> (<[path := []]> fs),
       [OpenW path])
    else (Raise OSError, fs, []).

(** ** Run Orchestrator *)

(** [len(o)] *)
Definition py_len (o : pyval) : result nat :=
  match o with
  | PyList l => Ok (length l)
  | PyDict d => Ok (length d)
  | PyStr s => Ok (length s)
  | _ => Raise TypeError
  end.

(** [o[:n]] *)
Definition py_slice_to (o : pyval) (n : nat) : result (list pyval) :=
  match o with
  | PyList l => Ok (take n l)
  | PyStr s => Ok (map (fun c => PyStr [c]) (take n s))
  | _ => Raise TypeError
  end.

(** Whether [float(n)] is defined for the [int] [n]: from
    [2**1024 - 2**970] on, the nearest double would be [2**1024] and the
    conversion raises. *)
Definition fits_float (n : Z) : bool := (Z.abs n <? 2 ^ 1024 - 2 ^ 970)%Z.

(** Whether [f"{v:.2f}"] formats, and what it raises when it does not; an
    [int] is converted to a float first. *)
Definition format_2f (v : pyval) : result pyval :=
  match v with
  | PyFloat _ | PyBool _ => Ok v
  | PyInt n => if fits_float n then Ok v else Raise OverflowError
  | PyStr _ => Raise ValueError
  | _ => Raise TypeError
  end.

Definition preview_line (word : pyval) : M unit :=
  w <- lift (py_getitem word (lit "word")) ;;
  s <- lift (s <~ py_getitem word (lit "start") ;; format_2f s)%py ;;
  t <- lift (t <~ py_getitem word (lit "end") ;; format_2f t)%py ;;
  print (MsgPreview w s t).

Fixpoint for_each_io (items : list pyval) (body : pyval -> M unit) : M unit :=
  match items with
  | [] => ret tt
  | x :: rest => body x ;;; for_each_io rest body
  end.

Definition audio_file : string :=
  "public/The Picture of Dorian Gray by Oscar Wilde  Full audiobook.mp3".
Definition temp_audio : string := "temp_60sec.mp3".
Definition output_json : string := "public/transcription.json".

(** The body of [try]. *)
Definition main_try (e : env) : M unit :=
  extract_first_60_seconds e audio_file temp_audio ;;;
  result <- transcribe_audio e temp_audio ;;
  json_data <- lift (convert_to_json_format result) ;;
  print (MsgSaving output_json) ;;;
  write_json e output_json json_data ;;;
  words <- lift (py_getitem json_data (lit "words")) ;;
  word_count <- lift (py_len words) ;;
  print (MsgSuccess word_count) ;;;
  print (MsgSaved output_json) ;;;
  print MsgFirstFew ;;;
  words <- lift (py_getitem json_data (lit "words")) ;;
  first_words <- lift (py_slice_to words 10) ;;
  for_each_io first_words preview_line.

(** The body of [finally]. *)
Definition main_finally : M unit :=
  there <- path_exists temp_audio ;;
  if there : bool then os_remove temp_audio ;;; print MsgCleanedUp else ret tt.

(** How the process ends: [main] returns (exit status 0), [sys.exit(code)]
    is called, or an exception reaches the top level (exit status 1). *)
Inductive status : Type :=
| Returned
| SysExit (code : Z)
| Uncaught (e : pyexc).

Definition exit_code (s : status) : Z :=
  match s with
  | Returned => 0
  | SysExit code => code
  | Uncaught _ => 1
  end.

Definition main (e : env) (fs : filesys) : status * filesys * list event :=
  if bool_decide (is_Some (fs !! audio_file)) then
    match main_try e fs with
    | (r, fs1, ev1) =>
        match main_finally fs1 with
        | (_, fs2, ev2) =>
            (match r with Ok _ => Returned | Raise x => Uncaught x end,
             fs2, ev1 ++ ev2)
        end
    end
  else
    (SysExit 1, fs, [Print (MsgNotFound audio_file); Print MsgMakeSure]).

(** ** Notions used to state the properties *)

(** [t] is [s] without its leading and trailing whitespace. *)
Definition trimmed (s t : pystr) : Prop :=
  (exists pre post, s = pre ++ t ++ post
     /\ Forall (fun c => isspace c = true) pre
     /\ Forall (fun c => isspace c = true) post)
  /\ (forall c t', t = c :: t' -> isspace c = false)
  /\ (forall c t', t = t' ++ [c] -> isspace c = false).

(** The scenario of the specification. *)
Definition scenario_result : pyval :=
  PyDict [(lit "segments",
           PyList [PyDict [(lit "words",
                            PyList [PyDict [(lit "word", PyStr (lit " Hello"));
                                            (lit "start", PyFloat 0.0);
                                            (lit "end", PyFloat 0.4)]])];
                   PyDict [(lit "words", PyList [])]])].

Definition scenario_transcript : pyval :=
  PyDict [(lit "words",
           PyList [PyDict [(lit "word", PyStr (lit "Hello"));
                           (lit "start", PyFloat 0.0);
                           (lit "end", PyFloat 0.4)]])].
(** *** Ordering of timestamps, for any comparison [le] of the values *)

(** Every word of an earlier segment starts no later than every word of a
    later one. *)
Definition chronological (le : pyval -> pyval -> Prop)
    (segs : list (list word_entry)) : Prop :=
  forall i j sa sb a b,
    (i < j)%nat -> segs !! i = Some sa -> segs !! j = Some sb ->
    In a sa -> In b sb -> le (we_start a) (we_start b).

Definition entry_start_le (le : pyval -> pyval -> Prop) (a b : word_entry) : Prop :=
  le (we_start a) (we_start b).

(** The same, read off the records of the output. *)
Definition start_le_end (le : pyval -> pyval -> Prop) (rec : pyval) : Prop :=
  exists s t, py_getitem rec (lit "start") = Ok s
    /\ py_getitem rec (lit "end") = Ok t /\ le s t.

Definition start_le (le : pyval -> pyval -> Prop) (a b : pyval) : Prop :=
  exists sa sb, py_getitem a (lit "start") = Ok sa
    /\ py_getitem b (lit "start") = Ok sb /\ le sa sb.

(** [<=] on two floats, the comparison the engine's timestamps come with. *)
Definition float_le (a b : pyval) : Prop :=
  match a, b with
  | PyFloat x, PyFloat y => PrimFloat.leb x y = true
  | _, _ => False
  end.

(** *** Results with container keys missing *)

Definition has_key (k : pystr) (v : pyval) : bool :=
  match v with
  | PyDict d => bool_decide (is_Some (assoc k d))
  | _ => false
  end.

Definition complete_entry (v : pyval) : bool :=
  has_key (lit "word") v && has_key (lit "start") v && has_key (lit "end") v.

(** A word entry in which keys may be missing: a dict whose ["word"], when
    there, is a [str]. *)
Definition entry_shaped (v : pyval) : Prop :=
  exists d, v = PyDict d
    /\ forall x, assoc (lit "word") d = Some x -> exists s, x = PyStr s.

(** A segment whose ["words"] may be missing, with the entries it holds. *)
Definition segment_shaped (v : pyval) (entries : list pyval) : Prop :=
  exists d, v = PyDict d
    /\ (assoc (lit "words") d = None /\ entries = []
        \/ assoc (lit "words") d = Some (PyList entries))
    /\ Forall entry_shaped entries.

(** A result whose ["segments"] may be missing, with the entries of each of
    the segments it holds. *)
Definition result_shaped (v : pyval) (segs : list (list pyval)) : Prop :=
  exists d, v = PyDict d
    /\ (assoc (lit "segments") d = None /\ segs = []
        \/ exists l, assoc (lit "segments") d = Some (PyList l)
             /\ Forall2 segment_shaped l segs).

Definition entry_keys : list pystr := [lit "word"; lit "start"; lit "end"].

(** *** Stages of the run and kinds of events *)

(** The continuations of [main]'s [try] body, named: reporting, after the
    output is written; formatting and writing, after transcription;
    everything after extraction. *)
Definition report_stage (json_data : pyval) : M unit :=
  words <- lift (py_getitem json_data (lit "words")) ;;
  word_count <- lift (py_len words) ;;
  print (MsgSuccess word_count) ;;;
  print (MsgSaved output_json) ;;;
  print MsgFirstFew ;;;
  words <- lift (py_getitem json_data (lit "words")) ;;
  first_words <- lift (py_slice_to words 10) ;;
  for_each_io first_words preview_line.

Definition publish_stage (e : env) (result : pyval) : M unit :=
  json_data <- lift (convert_to_json_format result) ;;
  print (MsgSaving output_json) ;;;
  write_json e output_json json_data ;;;
  report_stage json_data.

Definition after_extraction (e : env) : M unit :=
  result <- transcribe_audio e temp_audio ;;
  publish_stage e result.

(** The command lines of the child processes started, in order. *)
Definition commands (evs : list event) : list (list string) :=
  flat_map (fun ev => match ev with Subprocess cmd => [cmd] | _ => [] end) evs.

Definition engine_event (ev : event) : bool :=
  match ev with
  | LoadModel _ | Transcribe _ => true
  | _ => false
  end.

Definition write_event (ev : event) : bool :=
  match ev with
  | OpenW _ => true
  | _ => false
  end.

(** A successful run of the media tool leaves its output at the
    destination. *)
Definition tool_delivers (e : env) : Prop :=
  forall cmd input p,
    ffmpeg e cmd input = Completed p -> returncode p = 0%Z -> is_Some (wrote p).

(** An event that neither involves the engine nor opens a file. *)
Definition quiet (ev : event) : Prop :=
  engine_event ev = false /\ write_event ev = false.

(** A computation that leaves the file system alone and whose result and
    events do not depend on it. *)
Definition pure_io {A : Type} (m : M A) : Prop :=
  exists r ev, (forall fs, m fs = (r, fs, ev)) /\ Forall quiet ev.

(** What formatting and writing come to, for an engine result [res]: the
    result [r], what is left in the output file ([None]: untouched) and the
    events. *)
Definition published (e : env) (res : pyval)
    (r : result unit) (w : option content) (ev : list event) : Prop :=
  Forall (fun x => engine_event x = false) ev
  /\ ((w = None /\ Forall (fun x => write_event x = false) ev
       /\ exists x, r = Raise x)
      \/ (exists t,
            convert_to_json_format res = Ok t
            /\ w = Some (json_dump e t).1
            /\ In (OpenW output_json) ev
            /\ forall x, (json_dump e t).2 = Some x -> r = Raise x)).

(** The same for everything after extraction, for a clip [clip]. *)
Definition delivered (e : env) (clip : option content)
    (r : result unit) (w : option content) (ev : list event) : Prop :=
  (w = None /\ Forall (fun x => write_event x = false) ev
   /\ exists x, r = Raise x)
  \/ (exists res t,
        transcribe e clip = Ok res
        /\ convert_to_json_format res = Ok t
        /\ w = Some (json_dump e t).1
        /\ In (OpenW output_json) ev
        /\ forall x, (json_dump e t).2 = Some x -> r = Raise x).

(** *** Output *)

Definition ascii_only (s : pystr) : Prop := Forall (fun c => c < 128) s.

(** The text [s] is somewhere in [t]. *)
Definition occurs_in (s t : pystr) : Prop := exists pre post, t = pre ++ s ++ post.

(** The escape of a code point [c] in JSON: [\uXXXX], or the two escapes
    of its surrogate pair when [c] is above U+FFFF. *)
Definition unicode_escape (c : N) : pystr :=
  if (c <? 0x10000)%N then lit "\u" ++ hex4 c
  else lit "\u" ++ hex4 (N.lor 0xd800 (N.land (N.shiftr (c - 0x10000) 10) 0x3ff))
       ++ lit "\u" ++ hex4 (N.lor 0xdc00 (N.land (c - 0x10000) 0x3ff)).

(** All or nothing, as the specification puts it: after the run the output
    file is as it was, or it holds the full text of a Transcript. *)
Definition all_or_nothing (e : env) (fs : filesys) : Prop :=
  let '(st, fs', evs) := main e fs in
  fs' !! output_json = fs !! output_json
  \/ exists ws text,
       iterencode (float_repr e) (Transcript ws) 0 = (text, None)
       /\ fs' !! output_json = Some text.

(** *** Sample surroundings *)

Definition sample_clip : content := [73; 68; 51; 4].

Definition sample_float_repr (x : float) : pystr :=
  if PrimFloat.eqb x 0.4 then lit "0.4" else lit "0.0".

(** The tool copies, the engine answers with the scenario's result. *)
Definition env_fine : env :=
  mkEnv (fun _ _ => Completed (mkProc 0 [] (Some sample_clip)))
        None (fun _ => Ok scenario_result) sample_float_repr true None.

(** The tool fails under both strategies. *)
Definition env_tool_fails : env :=
  mkEnv (fun _ _ => Completed (mkProc 1 (lit "Invalid data found") None))
        None (fun _ => Ok scenario_result) sample_float_repr true None.

(** As [env_fine], on a device with no room left. *)
Definition env_disk_full : env :=
  mkEnv (fun _ _ => Completed (mkProc 0 [] (Some sample_clip)))
        None (fun _ => Ok scenario_result) sample_float_repr true (Some 0%nat).

(** As [env_fine], with an engine whose first timestamp is an object the
    JSON encoder does not know. *)
Definition env_odd_stamp : env :=
  mkEnv (fun _ _ => Completed (mkProc 0 [] (Some sample_clip)))
        None
        (fun _ => Ok (PyDict [(lit "segments",
           PyList [PyDict [(lit "words",
             PyList [PyDict [(lit "word", PyStr (lit " Hello"));
                             (lit "start", PyObj "Decimal");
                             (lit "end", PyFloat 0.4)]])]])]))
        sample_float_repr true None.

Definition fs_input : filesys := {[ audio_file := [73; 68; 51; 3; 0] ]}.

Definition fs_with_output : filesys := <[ output_json := lit "{}" ]> fs_input.

(** *** Further notions: the Formatter's output and the run's report *)

(** A record of the output schema: exactly the keys ["word"], ["start"] and
    ["end"], in this order, the word a [str] with no whitespace at either
    end. *)
Definition is_word_record (v : pyval) : Prop :=
  exists t s e,
    v = PyDict [(lit "word", PyStr t); (lit "start", s); (lit "end", e)]
    /\ (forall c t', t = c :: t' -> isspace c = false)
    /\ (forall c t', t = t' ++ [c] -> isspace c = false).

(** An engine result that holds the segments [l] and nothing else. *)
Definition with_segments (l : list pyval) : pyval :=
  PyDict [(lit "segments", PyList l)].

(** A segment that holds the word entries [l] and nothing else. *)
Definition with_words (l : list pyval) : pyval :=
  PyDict [(lit "words", PyList l)].

(** Values the JSON encoder knows how to write. *)
Fixpoint serialisable (v : pyval) : bool :=
  match v with
  | PyObj _ => false
  | PyList l => forallb serialisable l
  | PyDict d => forallb (fun '(_, x) => serialisable x) d
  | _ => true
  end.






(** *** Further sample surroundings *)

(** The stream copy fails after leaving part of a file, the re-encoding
    succeeds. *)
Definition env_fallback : env :=
  mkEnv (fun cmd _ =>
           if bool_decide (nth 6 cmd "" = "copy")
           then Completed (mkProc 1 (lit "codec not supported") (Some [73; 68]))
           else Completed (mkProc 0 [] (Some sample_clip)))
        None (fun _ => Ok scenario_result) sample_float_repr true None.

(** The engine cannot read the clip. *)
Definition env_engine_fails : env :=
  mkEnv (fun _ _ => Completed (mkProc 0 [] (Some sample_clip)))
        None (fun _ => Raise ValueError) sample_float_repr true None.

(** The engine hears a word with an accent: [" caf"] and U+00E9. *)
Definition env_accent : env :=
  mkEnv (fun _ _ => Completed (mkProc 0 [] (Some sample_clip)))
        None
        (fun _ => Ok (with_segments
                        [with_words [PyDict [(lit "word", PyStr [32; 99; 97; 102; 233]);
                                             (lit "start", PyFloat 0.0);
                                             (lit "end", PyFloat 0.4)]]]))
        sample_float_repr true None.



(** *** The script as a whole *)



(** ** Formatter: flattening *)

Lemma word_record_entry v w :
  is_entry v w -> word_record v = Ok (Word w).
Proof.
  intros (d & -> & Hw & Hs & He).
  unfold word_record, py_getitem.
  rewrite Hw; cbn [bind py_strip].
  rewrite Hs, He. reflexivity.
Qed.

Lemma for_each_entries l ws acc :
  Forall2 is_entry l ws ->
  for_each l (fun word_info words => r <~ word_record word_info ;; Ok (words ++ [r])) acc
  = Ok (acc ++ map Word ws).
Proof.
  intros H. revert acc.
  induction H as [|v w l ws Hv _ IH]; intros acc; cbn [for_each map].
  - now rewrite app_nil_r.
  - rewrite (word_record_entry _ _ Hv); cbn [bind].
    rewrite IH, <- app_assoc. reflexivity.
Qed.

Lemma segment_loop_segment v ws acc :
  is_segment v ws -> segment_loop v acc = Ok (acc ++ map Word ws).
Proof.
  intros (d & l & -> & Hw & Hl).
  unfold segment_loop, py_get. rewrite Hw; cbn [default id bind py_iter].
  now apply for_each_entries.
Qed.

Lemma for_each_segments l segs acc :
  Forall2 is_segment l segs ->
  for_each l segment_loop acc = Ok (acc ++ map Word (concat segs)).
Proof.
  intros H. revert acc.
  induction H as [|v ws l segs Hv _ IH]; intros acc; cbn [for_each concat].
  - now rewrite app_nil_r.
  - rewrite (segment_loop_segment _ _ _ Hv); cbn [bind].
    rewrite IH, map_app, app_assoc. reflexivity.
Qed.

Lemma convert_flattens r segs :
  is_result r segs ->
  convert_to_json_format r = Ok (Transcript (map Word (concat segs))).
Proof.
  intros (d & l & -> & Hs & Hl).
  unfold convert_to_json_format, py_get. rewrite Hs; cbn [default id bind py_iter].
  rewrite (for_each_segments _ _ [] Hl). reflexivity.
Qed.

(** ** Formatter: whitespace *)

Lemma lstrip_split s :
  exists pre, s = pre ++ lstrip s /\ Forall (fun c => isspace c = true) pre.
Proof.
  induction s as [|c s (pre & Hs & Hpre)]; cbn [lstrip].
  - exists []. split; [reflexivity | constructor].
  - destruct (isspace c) eqn:Hc.
    + exists (c :: pre). split; [cbn; congruence | now constructor].
    + exists []. split; [reflexivity | constructor].
Qed.

Lemma lstrip_head s c t : lstrip s = c :: t -> isspace c = false.
Proof.
  induction s as [|a s IH]; cbn [lstrip]; [discriminate |].
  destruct (isspace a) eqn:Ha; [exact IH |].
  intros [= -> _]. exact Ha.
Qed.

Lemma lstrip_all_space s :
  Forall (fun c => isspace c = true) s -> lstrip s = [].
Proof.
  induction 1 as [|c s Hc _ IH]; cbn [lstrip]; [reflexivity |].
  now rewrite Hc.
Qed.

Lemma strip_all_space s :
  Forall (fun c => isspace c = true) s -> strip s = [].
Proof.
  intros H. unfold strip, rstrip. now rewrite (lstrip_all_space s H).
Qed.

Lemma strip_trimmed s : trimmed s (strip s).
Proof.
  unfold strip, rstrip.
  destruct (lstrip_split s) as (pre & Hs & Hpre).
  destruct (lstrip_split (rev (lstrip s))) as (post & Ht & Hpost).
  set (t := lstrip s) in *. set (u := lstrip (rev t)) in *.
  assert (Htu : t = rev u ++ rev post).
  { rewrite <- rev_app_distr, <- Ht, rev_involutive. reflexivity. }
  split; [|split].
  - exists pre, (rev post). split; [|split].
    + rewrite <- Htu. exact Hs.
    + exact Hpre.
    + now apply List.Forall_rev.
  - intros c t' Hu. apply (lstrip_head s c (t' ++ rev post)).
    fold t. rewrite Htu, Hu. reflexivity.
  - intros c t' Hu. apply (lstrip_head (rev t) c (rev t')).
    fold u. rewrite <- (rev_involutive u), Hu, rev_app_distr. reflexivity.
Qed.

(** C1.  For every engine result, [convert_to_json_format] returns the
    Transcript whose word list is the segments' word lists flattened in
    encounter order, one Word record per entry, with the text stripped of
    leading and trailing whitespace and start and end copied unchanged; a
    segment without words adds nothing and a result without segments gives
    the empty Transcript. *)
Theorem convert_to_json_format_flattens r segs :
  is_result r segs ->
  convert_to_json_format r = Ok (Transcript (map Word (concat segs)))
  /\ Forall (fun w => trimmed (we_word w) (strip (we_word w))) (concat segs).
Proof.
  intros H. split.
  - now apply convert_flattens.
  - apply Forall_forall. intros w _. apply strip_trimmed.
Qed.

(** The scenario of the specification: one word [" Hello"] followed by an
    empty segment. *)
Lemma convert_to_json_format_scenario :
  is_result scenario_result [[WordEntry (lit " Hello") (PyFloat 0.0) (PyFloat 0.4)]; []]
  /\ convert_to_json_format scenario_result = Ok scenario_transcript.
Proof.
  assert (H : is_result scenario_result
                [[WordEntry (lit " Hello") (PyFloat 0.0) (PyFloat 0.4)]; []]).
  { eexists _, _. split; [reflexivity |]. split; [reflexivity |].
    constructor; [| constructor; [| constructor]].
    - eexists _, _. split; [reflexivity |]. split; [reflexivity |].
      constructor; [| constructor].
      eexists. repeat split; reflexivity.
    - eexists _, _. split; [reflexivity |]. split; [reflexivity |]. constructor. }
  split; [exact H |].
  exact (proj1 (convert_to_json_format_flattens _ _ H)).
Defined.

(** C9.  The Formatter never drops a word entry: the output list is as long
    as the segments' word lists taken together, and an entry whose text is
    only whitespace is kept, at its place, as a Word record whose word is
    the empty string. *)
Theorem convert_to_json_format_keeps_every_entry r segs :
  is_result r segs ->
  exists ws,
    convert_to_json_format r = Ok (Transcript ws)
    /\ length ws = list_sum (map length segs)
    /\ forall i w,
         concat segs !! i = Some w ->
         Forall (fun c => isspace c = true) (we_word w) ->
         ws !! i = Some (PyDict [(lit "word", PyStr []);
                                 (lit "start", we_start w);
                                 (lit "end", we_end w)]).
Proof.
  intros H. exists (map Word (concat segs)). split; [|split].
  - now apply convert_flattens.
  - now rewrite length_map, length_concat.
  - intros i w Hi Hw.
    change (map Word (concat segs)) with (Word <$> concat segs).
    rewrite list_lookup_fmap, Hi. cbn [fmap option_fmap option_map].
    unfold Word. now rewrite (strip_all_space _ Hw).
Qed.

(** A result with one segment of three entries, the second being blank. *)
Lemma convert_to_json_format_keeps_blank_entry :
  exists ws,
    convert_to_json_format
      (PyDict [(lit "segments",
                PyList [PyDict [(lit "words",
                  PyList [PyDict [(lit "word", PyStr (lit " a")); (lit "start", PyFloat 0.0); (lit "end", PyFloat 0.5)];
                          PyDict [(lit "word", PyStr (lit "  ")); (lit "start", PyFloat 0.5); (lit "end", PyFloat 0.5)];
                          PyDict [(lit "word", PyStr (lit " b")); (lit "start", PyFloat 0.5); (lit "end", PyFloat 1.0)]])]])])
    = Ok (Transcript ws)
    /\ length ws = 3%nat.
Proof.
  destruct (convert_to_json_format_keeps_every_entry
    (PyDict [(lit "segments",
                PyList [PyDict [(lit "words",
                  PyList [PyDict [(lit "word", PyStr (lit " a")); (lit "start", PyFloat 0.0); (lit "end", PyFloat 0.5)];
                          PyDict [(lit "word", PyStr (lit "  ")); (lit "start", PyFloat 0.5); (lit "end", PyFloat 0.5)];
                          PyDict [(lit "word", PyStr (lit " b")); (lit "start", PyFloat 0.5); (lit "end", PyFloat 1.0)]])]])])
    [[WordEntry (lit " a") (PyFloat 0.0) (PyFloat 0.5);
      WordEntry (lit "  ") (PyFloat 0.5) (PyFloat 0.5);
      WordEntry (lit " b") (PyFloat 0.5) (PyFloat 1.0)]])
    as (ws & Hc & Hlen & _).
  - eexists _, _. split; [reflexivity |]. split; [reflexivity |].
    constructor; [| constructor].
    eexists _, _. split; [reflexivity |]. split; [reflexivity |].
    repeat constructor; eexists; repeat split; reflexivity.
  - exists ws. split; [exact Hc | exact Hlen].
Defined.

(** ** Formatter: order of the timestamps *)

Lemma chronological_cons le s segs :
  chronological le (s :: segs) ->
  chronological le segs
  /\ forall a b, In a s -> In b (concat segs) -> le (we_start a) (we_start b).
Proof.
  intros H. split.
  - intros i j sa sb a b Hij Hi Hj. apply (H (S i) (S j)); [lia | exact Hi | exact Hj].
  - intros a b Ha Hb. apply in_concat in Hb as (sb & Hsb & Hb).
    apply list_elem_of_In, list_elem_of_lookup in Hsb as (j & Hj).
    apply (H 0%nat (S j) s sb); [lia | reflexivity | exact Hj | exact Ha | exact Hb].
Qed.

Lemma concat_strongly_sorted le segs :
  Forall (StronglySorted (entry_start_le le)) segs ->
  chronological le segs ->
  StronglySorted (entry_start_le le) (concat segs).
Proof.
  induction 1 as [|s segs Hs _ IH]; intros Hc; cbn [concat].
  - constructor.
  - apply chronological_cons in Hc as (Hc & Hcross).
    apply StronglySorted_app_2; [| exact Hs | exact (IH Hc)].
    intros a b Ha Hb. apply Hcross; now apply list_elem_of_In.
Qed.

Lemma Word_start w : py_getitem (Word w) (lit "start") = Ok (we_start w).
Proof. reflexivity. Qed.

Lemma Word_end w : py_getitem (Word w) (lit "end") = Ok (we_end w).
Proof. reflexivity. Qed.

Lemma map_Word_sorted le l :
  StronglySorted (entry_start_le le) l ->
  StronglySorted (start_le le) (map Word l).
Proof.
  induction 1 as [|a l _ IH Ha]; cbn [map].
  - constructor.
  - constructor; [exact IH |]. clear IH.
    induction Ha as [|b l Hab _ IHl]; cbn [map].
    + constructor.
    + constructor; [| exact IHl].
      exists (we_start a), (we_start b).
      split; [apply Word_start |]. split; [apply Word_start | exact Hab].
Qed.

(** C6.  When the engine's segments are in chronological order, the words
    of each segment are ordered and every entry starts no later than it
    ends, then every word of the Transcript starts no later than it ends
    and the words of the whole Transcript are in non-decreasing order of
    start; this holds for any comparison of the timestamps, which the
    Formatter never evaluates. *)
Theorem convert_to_json_format_preserves_order
    (le : pyval -> pyval -> Prop) r segs :
  is_result r segs ->
  Forall (Forall (fun w => le (we_start w) (we_end w))) segs ->
  Forall (StronglySorted (entry_start_le le)) segs ->
  chronological le segs ->
  exists ws,
    convert_to_json_format r = Ok (Transcript ws)
    /\ Forall (start_le_end le) ws
    /\ StronglySorted (start_le le) ws.
Proof.
  intros Hr Hse Hin Hch. exists (map Word (concat segs)). split; [|split].
  - now apply convert_flattens.
  - apply List.Forall_map. apply Forall_concat in Hse.
    eapply Forall_impl; [exact Hse |].
    intros w Hw. exists (we_start w), (we_end w).
    split; [apply Word_start |]. split; [apply Word_end | exact Hw].
  - apply map_Word_sorted. now apply concat_strongly_sorted.
Qed.

(** Two segments of the engine, [0.0-0.4 | 0.4-0.9] and [1.0-1.5]. *)
Lemma convert_to_json_format_preserves_order_example :
  exists ws,
    convert_to_json_format
      (PyDict [(lit "segments",
         PyList [PyDict [(lit "words",
                   PyList [PyDict [(lit "word", PyStr (lit " The")); (lit "start", PyFloat 0.0); (lit "end", PyFloat 0.4)];
                           PyDict [(lit "word", PyStr (lit " Picture")); (lit "start", PyFloat 0.4); (lit "end", PyFloat 0.9)]])];
                 PyDict [(lit "words",
                   PyList [PyDict [(lit "word", PyStr (lit " of")); (lit "start", PyFloat 1.0); (lit "end", PyFloat 1.5)]])]])])
    = Ok (Transcript ws)
    /\ Forall (start_le_end float_le) ws
    /\ StronglySorted (start_le float_le) ws.
Proof.
  apply (convert_to_json_format_preserves_order float_le _
    [[WordEntry (lit " The") (PyFloat 0.0) (PyFloat 0.4);
      WordEntry (lit " Picture") (PyFloat 0.4) (PyFloat 0.9)];
     [WordEntry (lit " of") (PyFloat 1.0) (PyFloat 1.5)]]).
  - eexists _, _. split; [reflexivity |]. split; [reflexivity |].
    repeat constructor;
      (eexists _, _; split; [reflexivity |]; split; [reflexivity |]);
      repeat constructor; eexists; repeat split; reflexivity.
  - repeat constructor.
  - repeat constructor.
  - intros i j sa sb a b Hij Hi Hj Ha Hb.
    destruct i as [|[|i]]; destruct j as [|[|j]]; try lia; try discriminate.
    injection Hi as <-. injection Hj as <-.
    destruct Ha as [<- | [<- | []]]; destruct Hb as [<- | []]; reflexivity.
Defined.

(** ** Formatter: missing keys *)

Lemma word_record_shaped v :
  entry_shaped v ->
  (complete_entry v = true /\ exists rec, word_record v = Ok rec)
  \/ (complete_entry v = false
      /\ exists k, word_record v = Raise (KeyError k) /\ In k entry_keys).
Proof.
  intros (d & -> & Hstr).
  unfold word_record, complete_entry, has_key, py_getitem, entry_keys.
  destruct (assoc (lit "word") d) as [x|] eqn:Hw.
  - destruct (Hstr x eq_refl) as (s & ->). cbn [bind py_strip].
    destruct (assoc (lit "start") d) as [y|] eqn:Hs.
    + destruct (assoc (lit "end") d) as [z|] eqn:He.
      * left. split; [reflexivity | eexists; reflexivity].
      * right. split; [reflexivity |].
        eexists. split; [reflexivity | cbn; tauto].
    + right. split; [reflexivity |].
      eexists. split; [reflexivity | cbn; tauto].
  - right. split; [reflexivity |].
    eexists. split; [reflexivity | cbn; tauto].
Qed.

Lemma for_each_shaped l acc :
  Forall entry_shaped l ->
  (Forall (fun v => complete_entry v = true) l
   /\ exists recs,
        for_each l (fun word_info words => r <~ word_record word_info ;; Ok (words ++ [r])) acc
        = Ok (acc ++ recs)
        /\ Forall2 (fun v rec => word_record v = Ok rec) l recs)
  \/ (Exists (fun v => complete_entry v = false) l
      /\ exists k,
           for_each l (fun word_info words => r <~ word_record word_info ;; Ok (words ++ [r])) acc
           = Raise (KeyError k)
           /\ In k entry_keys).
Proof.
  intros H. revert acc.
  induction H as [|v l Hv _ IH]; intros acc; cbn [for_each].
  - left. split; [constructor |]. exists []. split; [now rewrite app_nil_r | constructor].
  - destruct (word_record_shaped v Hv) as [(Hc & rec & Hrec) | (Hc & k & Hk & Hin)].
    + rewrite Hrec; cbn [bind].
      destruct (IH (acc ++ [rec])) as [(Hall & recs & Hrun & Hrecs) | (Hex & k & Hrun & Hin)].
      * left. split; [now constructor |].
        exists (rec :: recs). split; [| now constructor].
        rewrite Hrun, <- app_assoc. reflexivity.
      * right. split; [now apply Exists_cons_tl |]. exists k. now split.
    + right. split; [now apply Exists_cons_hd |].
      exists k. rewrite Hk. now split.
Qed.

Lemma segment_loop_shaped v entries acc :
  segment_shaped v entries ->
  segment_loop v acc
  = for_each entries (fun word_info words => r <~ word_record word_info ;; Ok (words ++ [r])) acc.
Proof.
  intros (d & -> & [(Hw & ->) | Hw] & _); unfold segment_loop, py_get;
    rewrite Hw; reflexivity.
Qed.

Lemma for_each_segments_shaped l segs acc :
  Forall2 segment_shaped l segs ->
  (Forall (fun v => complete_entry v = true) (concat segs)
   /\ exists recs,
        for_each l segment_loop acc = Ok (acc ++ recs)
        /\ Forall2 (fun v rec => word_record v = Ok rec) (concat segs) recs)
  \/ (Exists (fun v => complete_entry v = false) (concat segs)
      /\ exists k, for_each l segment_loop acc = Raise (KeyError k) /\ In k entry_keys).
Proof.
  intros H. revert acc.
  induction H as [|v s l segs Hv _ IH]; intros acc; cbn [for_each concat].
  - left. split; [constructor |]. exists []. split; [now rewrite app_nil_r | constructor].
  - rewrite (segment_loop_shaped _ _ _ Hv).
    destruct Hv as (d & _ & _ & Hs).
    destruct (for_each_shaped s acc Hs) as [(Hall & recs & Hrun & Hrecs) | (Hex & k & Hrun & Hin)].
    + rewrite Hrun; cbn [bind].
      destruct (IH (acc ++ recs)) as [(Hall' & recs' & Hrun' & Hrecs') | (Hex & k & Hrun' & Hin)].
      * left. split; [now apply Forall_app |].
        exists (recs ++ recs'). split; [| now apply Forall2_app].
        rewrite Hrun', <- app_assoc. reflexivity.
      * right. split; [apply Exists_app; now right |]. exists k. now split.
    + right. split; [apply Exists_app; now left |].
      exists k. rewrite Hrun. now split.
Qed.

Lemma complete_not_incomplete l :
  Forall (fun v => complete_entry v = true) l ->
  Exists (fun v => complete_entry v = false) l -> False.
Proof.
  intros Hall Hex. induction Hex as [v l Hv | v l _ IH].
  - apply Forall_inv in Hall. congruence.
  - apply IH. now apply Forall_inv_tail in Hall.
Qed.

(** C8.  Missing container keys are tolerated: a result without
    ["segments"] gives the empty Transcript and a segment without ["words"]
    adds nothing, both lookups falling back on the empty list, so that the
    Transcript holds the records of the entries there are; an error is
    raised only for a word entry that lacks ["word"], ["start"] or ["end"],
    and it is the [KeyError] of one of these keys. *)
Theorem convert_to_json_format_missing_keys r segs :
  result_shaped r segs ->
  (Forall (fun v => complete_entry v = true) (concat segs) ->
   exists ws,
     convert_to_json_format r = Ok (Transcript ws)
     /\ Forall2 (fun v rec => word_record v = Ok rec) (concat segs) ws)
  /\ (Exists (fun v => complete_entry v = false) (concat segs) ->
      exists k,
        convert_to_json_format r = Raise (KeyError k) /\ In k entry_keys)
  /\ (has_key (lit "segments") r = false ->
      convert_to_json_format r = Ok (Transcript [])).
Proof.
  intros (d & -> & Hsegs). unfold convert_to_json_format, py_get, has_key.
  destruct Hsegs as [(Hnone & ->) | (l & Hl & Hshape)].
  - rewrite Hnone. cbn. split; [|split].
    + intros _. exists []. split; [reflexivity | constructor].
    + intros Hex. inversion Hex.
    + reflexivity.
  - rewrite Hl. cbn [default id bind py_iter].
    destruct (for_each_segments_shaped l segs [] Hshape)
      as [(Hall & recs & Hrun & Hrecs) | (Hex & k & Hrun & Hin)].
    + rewrite Hrun. cbn [bind app]. split; [|split].
      * intros _. exists recs. now split.
      * intros Hex. destruct (complete_not_incomplete _ Hall Hex).
      * intros [=].
    + rewrite Hrun. cbn [bind]. split; [|split].
      * intros Hall. destruct (complete_not_incomplete _ Hall Hex).
      * intros _. exists k. now split.
      * intros [=].
Qed.

(** A result whose only segment has no ["words"], and a result without
    ["segments"]. *)
Lemma convert_to_json_format_missing_keys_example :
  convert_to_json_format (PyDict [(lit "segments", PyList [PyDict [(lit "id", PyInt 0)]])])
  = Ok (Transcript [])
  /\ convert_to_json_format (PyDict [(lit "text", PyStr [])]) = Ok (Transcript []).
Proof.
  split.
  - destruct (convert_to_json_format_missing_keys
      (PyDict [(lit "segments", PyList [PyDict [(lit "id", PyInt 0)]])]) [[]])
      as (Hok & _ & _).
    + eexists. split; [reflexivity |]. right. eexists. split; [reflexivity |].
      constructor; [| constructor].
      eexists. split; [reflexivity |]. split; [left; split; reflexivity | constructor].
    + destruct (Hok (List.Forall_nil _)) as (ws & Hws & Hrecs).
      inversion Hrecs; subst. exact Hws.
  - apply (convert_to_json_format_missing_keys (PyDict [(lit "text", PyStr [])]) []).
    + eexists. split; [reflexivity |]. left. split; reflexivity.
    + reflexivity.
Defined.

(** ** The paths *)

Lemma audio_ne_temp : audio_file <> temp_audio.
Proof. discriminate. Qed.

Lemma audio_ne_output : audio_file <> output_json.
Proof. discriminate. Qed.

Lemma temp_ne_output : temp_audio <> output_json.
Proof. discriminate. Qed.

(** ** Orchestrator: missing input *)

(** C5.  When the input audio file is absent, the run extracts nothing,
    transcribes nothing and writes nothing: it reports the missing input
    and exits with status 1, leaving the file system as it was. *)
Theorem main_missing_input e fs :
  fs !! audio_file = None ->
  let '(st, fs', evs) := main e fs in
  st = SysExit 1
  /\ exit_code st <> 0%Z
  /\ fs' = fs
  /\ evs = [Print (MsgNotFound audio_file); Print MsgMakeSure].
Proof.
  intros H. unfold main.
  rewrite bool_decide_eq_false_2.
  - repeat split. discriminate.
  - rewrite H. intros [x Hx]. discriminate.
Qed.

(** With an empty file system. *)
Lemma main_missing_input_example :
  let '(st, fs', evs) :=
    main (mkEnv (fun _ _ => SpawnError FileNotFoundError None) None
                (fun _ => Raise OSError) (fun _ => []) true None) ∅ in
  st = SysExit 1
  /\ exit_code st <> 0%Z
  /\ fs' = ∅
  /\ evs = [Print (MsgNotFound audio_file); Print MsgMakeSure].
Proof.
  apply (main_missing_input
    (mkEnv (fun _ _ => SpawnError FileNotFoundError None) None
           (fun _ => Raise OSError) (fun _ => []) true None) ∅).
  reflexivity.
Defined.

(** ** Orchestrator: cleanup *)

Lemma main_finally_run fs :
  main_finally fs
  = (Ok tt, delete temp_audio fs,
     if bool_decide (is_Some (fs !! temp_audio))
     then [Remove temp_audio; Print MsgCleanedUp] else []).
Proof.
  unfold main_finally, mbind, path_exists.
  destruct (bool_decide (is_Some (fs !! temp_audio))) eqn:Hb.
  - reflexivity.
  - apply bool_decide_eq_false_1 in Hb.
    rewrite delete_id; [reflexivity |].
    destruct (fs !! temp_audio) eqn:Ht; [| reflexivity].
    exfalso. apply Hb. eauto.
Qed.

Lemma main_run e fs r fs1 ev1 :
  is_Some (fs !! audio_file) ->
  main_try e fs = (r, fs1, ev1) ->
  main e fs
  = (match r with Ok _ => Returned | Raise x => Uncaught x end,
     delete temp_audio fs1,
     ev1 ++ (if bool_decide (is_Some (fs1 !! temp_audio))
             then [Remove temp_audio; Print MsgCleanedUp] else [])).
Proof.
  intros H Htry. unfold main.
  rewrite (bool_decide_eq_true_2 _ H), Htry, main_finally_run. reflexivity.
Qed.

(** C2.  On every path of a run that reaches the extraction stage, that is
    whatever the body of [try] returns or raises, the run ends with the
    temporary clip deleted: the final file system is the one the body left,
    without the clip. *)
Theorem main_removes_temp e fs :
  is_Some (fs !! audio_file) ->
  let '(r, fs1, ev1) := main_try e fs in
  let '(st, fs', evs) := main e fs in
  fs' = delete temp_audio fs1
  /\ fs' !! temp_audio = None
  /\ st = match r with Ok _ => Returned | Raise x => Uncaught x end.
Proof.
  intros H.
  destruct (main_try e fs) as [[r fs1] ev1] eqn:Htry.
  rewrite (main_run e fs r fs1 ev1 H Htry).
  split; [reflexivity |]. split; [apply lookup_delete_eq | reflexivity].
Qed.

(** A run in which the engine's result is the scenario's. *)
Lemma main_removes_temp_example :
  let '(r, fs1, ev1) := main_try env_fine fs_input in
  let '(st, fs', evs) := main env_fine fs_input in
  fs' = delete temp_audio fs1
  /\ fs' !! temp_audio = None
  /\ st = match r with Ok _ => Returned | Raise x => Uncaught x end.
Proof.
  apply (main_removes_temp env_fine fs_input).
  eexists. reflexivity.
Defined.

(** ** Clip Extractor *)

Lemma lookup_put_ne path w (fs : filesys) k :
  path <> k -> put path w fs !! k = fs !! k.
Proof.
  intros H. destruct w as [c|]; cbn [put]; [| reflexivity].
  now apply lookup_insert_ne.
Qed.

Lemma lookup_put_eq path w (fs : filesys) :
  put path w fs !! path = match w with Some c => Some c | None => fs !! path end.
Proof.
  destruct w as [c|]; cbn [put]; [| reflexivity]. apply lookup_insert_eq.
Qed.

Lemma put_put path w1 w2 (fs : filesys) :
  put path w2 (put path w1 fs)
  = put path (match w2 with Some c => Some c | None => w1 end) fs.
Proof.
  destruct w2 as [c2|]; [| reflexivity].
  destruct w1 as [c1|]; cbn [put]; [| reflexivity].
  apply insert_insert_eq.
Qed.

(** C3.  The extractor first runs the stream-copy command, [ffmpeg -i a
    -t 60 -acodec copy -y o]; the re-encode command, [ffmpeg -i a -t 60
    -acodec libmp3lame -y o], is run exactly when the stream-copy run ends
    with a nonzero return code, and no other command is run; when the
    re-encode run ends with a nonzero return code too, the extractor
    raises an exception that carries the tool's stderr, and the run then
    ends with that exception without the engine being loaded or asked to
    transcribe. *)
Theorem extract_first_60_seconds_fallback e a o fs :
  let copy := ["ffmpeg"; "-i"; a; "-t"; "60"; "-acodec"; "copy"; "-y"; o] in
  let reencode :=
    ["ffmpeg"; "-i"; a; "-t"; "60"; "-acodec"; "libmp3lame"; "-y"; o] in
  let '(r, fs', evs) := extract_first_60_seconds e a o fs in
  let first := subprocess_run e copy fs in
  (exists rest,
     evs = Print (MsgExtracting a) :: Subprocess copy :: rest)
  /\ (In (Subprocess reencode) evs
      <-> exists p, first.1.1 = Ok p /\ returncode p <> 0%Z)
  /\ (forall p1 p2,
        first.1.1 = Ok p1 -> returncode p1 <> 0%Z ->
        (subprocess_run e reencode first.1.2).1.1 = Ok p2 ->
        returncode p2 <> 0%Z ->
        r = Raise (Exception_ (lit "ffmpeg failed: " ++ stderr p2)))
  /\ (forall x,
        a = audio_file -> o = temp_audio -> is_Some (fs !! audio_file) ->
        r = Raise x ->
        (main e fs).1.1 = Uncaught x
        /\ Forall (fun ev => engine_event ev = false) (main e fs).2)
  /\ commands evs
     = copy :: match first.1.1 with
               | Ok p => if (returncode p =? 0)%Z then [] else [reencode]
               | Raise _ => []
               end.
Proof.
  assert (Hmain : forall r fs' evs,
    extract_first_60_seconds e a o fs = (r, fs', evs) ->
    Forall (fun ev => engine_event ev = false) evs ->
    forall x, a = audio_file -> o = temp_audio -> is_Some (fs !! audio_file) ->
      r = Raise x ->
      (main e fs).1.1 = Uncaught x
      /\ Forall (fun ev => engine_event ev = false) (main e fs).2).
  { intros r fs' evs Hrun Hevs x -> -> Hin ->.
    assert (Htry : main_try e fs = (Raise x, fs', evs)).
    { unfold main_try. unfold mbind at 1. now rewrite Hrun. }
    rewrite (main_run e fs _ _ _ Hin Htry). cbn [fst snd].
    split; [reflexivity |].
    apply Forall_app. split; [exact Hevs |].
    destruct (bool_decide (is_Some (fs' !! temp_audio))); repeat constructor. }
  revert Hmain. cbv zeta.
  unfold extract_first_60_seconds, subprocess_run, mbind, print, ret, raise. cbn [printable].
  cbn [nth List.last copy_cmd reencode_cmd].
  destruct (ffmpeg e _ (fs !! a)) as [p1|x1 w1] eqn:H1; cbn.
  - destruct (returncode p1 =? 0)%Z eqn:Hrc1; cbn.
    + apply Z.eqb_eq in Hrc1. intros Hmain. split; [eauto |]. split; [| split; [| split]]; [| | | reflexivity].
      * split.
        -- intros [[=] | [[=] | [[=] | []]]].
        -- intros (p & [= <-] & Hp). contradiction.
      * intros p1' p2 [= <-] Hp. contradiction.
      * intros x _ _ _ [=].
    + apply Z.eqb_neq in Hrc1.
      destruct (ffmpeg e _ (put o (wrote p1) fs !! a)) as [p2|x2 w2] eqn:H2; cbn.
      * destruct (returncode p2 =? 0)%Z eqn:Hrc2; cbn.
        -- apply Z.eqb_eq in Hrc2. intros Hmain. split; [eauto |]. split; [| split; [| split]]; [| | | reflexivity].
           ++ split; [eauto | tauto].
           ++ intros p1' p2' _ _ [= <-] Hp. contradiction.
           ++ intros x _ _ _ [=].
        -- intros Hmain. split; [eauto |]. split; [| split; [| split]]; [| | | reflexivity].
           ++ split; [eauto | tauto].
           ++ intros p1' p2' _ _ [= <-] _. reflexivity.
           ++ eapply Hmain; [reflexivity | repeat constructor].
      * intros Hmain. split; [eauto |]. split; [| split; [| split]]; [| | | reflexivity].
        -- split; [eauto | tauto].
        -- intros p1' p2' _ _ [=].
        -- eapply Hmain; [reflexivity | repeat constructor].
  - intros Hmain. split; [eauto |]. split; [| split; [| split]]; [| | | reflexivity].
    + split.
      * intros [[=] | [[=] | []]].
      * intros (p & [=] & _).
    + intros p1 p2 [=].
    + eapply Hmain; [reflexivity | repeat constructor].
Qed.

(** The tool fails twice on the input file: the extractor raises with the
    tool's stderr and the run ends there. *)
Lemma extract_first_60_seconds_fallback_example :
  (extract_first_60_seconds env_tool_fails audio_file temp_audio fs_input).1.1
  = Raise (Exception_ (lit "ffmpeg failed: " ++ lit "Invalid data found"))
  /\ commands
       (extract_first_60_seconds env_tool_fails audio_file temp_audio fs_input).2
     = [["ffmpeg"; "-i"; audio_file; "-t"; "60"; "-acodec"; "copy"; "-y";
         temp_audio];
        ["ffmpeg"; "-i"; audio_file; "-t"; "60"; "-acodec"; "libmp3lame"; "-y";
         temp_audio]]
  /\ (main env_tool_fails fs_input).1.1
     = Uncaught (Exception_ (lit "ffmpeg failed: " ++ lit "Invalid data found")).
Proof.
  pose proof (extract_first_60_seconds_fallback
                env_tool_fails audio_file temp_audio fs_input) as H.
  destruct (extract_first_60_seconds env_tool_fails audio_file temp_audio fs_input)
    as [[r fs'] evs] eqn:Hrun.
  cbv zeta in H. destruct H as (_ & _ & Hboth & Hmain & Hcmds).
  assert (Hr : r = Raise (Exception_ (lit "ffmpeg failed: " ++ lit "Invalid data found"))).
  { apply (Hboth (mkProc 1 (lit "Invalid data found") None)
                 (mkProc 1 (lit "Invalid data found") None));
      [reflexivity | discriminate | reflexivity | discriminate]. }
  split; [exact Hr |]. split.
  - exact Hcmds.
  - apply Hmain; [reflexivity | reflexivity | eexists; reflexivity | exact Hr].
Defined.

(** ** The JSON encoder emits ASCII *)

Local Open Scope N_scope.

Lemma ascii_only_check (s : pystr) :
  forallb (fun c => (c <? 128)%N) s = true -> ascii_only s.
Proof.
  intros H. apply Forall_forall. intros c Hc.
  apply list_elem_of_In in Hc.
  rewrite forallb_forall in H. now apply N.ltb_lt, H.
Qed.

Lemma ascii_only_app s t : ascii_only s -> ascii_only t -> ascii_only (s ++ t).
Proof. intros Hs Ht. now apply Forall_app. Qed.

Lemma hexdigit_ascii d : d < 16 -> hexdigit d < 128.
Proof. intros H. unfold hexdigit. destruct (d <? 10); lia. Qed.

Lemma hex4_ascii n : n < 0x10000 -> ascii_only (hex4 n).
Proof.
  intros H. unfold hex4.
  repeat constructor; apply hexdigit_ascii.
  - apply N.Div0.div_lt_upper_bound. lia.
  - now apply N.mod_lt.
  - now apply N.mod_lt.
  - now apply N.mod_lt.
Qed.

Lemma surrogate_bound hi x : hi < 0x10000 -> 0 < hi -> N.lor hi (N.land x 0x3ff) < 0x10000.
Proof.
  intros Hhi Hpos.
  assert (Hnz : 0 < N.lor hi (N.land x 0x3ff)).
  { apply N.neq_0_lt_0. intros H0. apply N.lor_eq_0_iff in H0. lia. }
  change 0x10000 with (2 ^ 16). apply N.log2_lt_pow2; [exact Hnz |].
  rewrite N.log2_lor.
  assert (H1 : N.log2 hi < 16).
  { apply N.log2_lt_pow2; [exact Hpos | exact Hhi]. }
  assert (H2 : N.log2 (N.land x 0x3ff) <= N.log2 0x3ff).
  { etransitivity; [apply N.log2_land | apply N.le_min_r]. }
  change (N.log2 0x3ff) with 9 in H2. lia.
Qed.

Lemma escape_char_ascii c : ascii_only (escape_char c).
Proof.
  unfold escape_char.
  repeat match goal with
         | |- context [if ?b then _ else _] => destruct b eqn:?
         end;
    try (apply ascii_only_check; reflexivity).
  - apply ascii_only_app; [apply ascii_only_check; reflexivity |].
    apply hex4_ascii. now apply N.ltb_lt.
  - repeat apply ascii_only_app;
      try (apply ascii_only_check; reflexivity);
      apply hex4_ascii; apply surrogate_bound; lia.
Qed.

Lemma encode_char_ascii c : ascii_only (encode_char c).
Proof.
  unfold encode_char.
  destruct ((c =? 92) || (c =? 34) || negb ((32 <=? c) && (c <=? 126))) eqn:H.
  - apply escape_char_ascii.
  - repeat constructor.
    apply orb_false_iff in H as (_ & H). apply negb_false_iff in H.
    apply andb_true_iff in H as (_ & H). apply N.leb_le in H. lia.
Qed.

Example encode_e_acute :
  encode_basestring_ascii [99; 97; 102; 233] = [34] ++ lit "caf\u00e9" ++ [34].
Proof. reflexivity. Qed.

Example encode_astral :
  encode_basestring_ascii [0x1F600] = [34] ++ lit "\ud83d\ude00" ++ [34].
Proof. reflexivity. Qed.

Lemma encode_basestring_ascii_ascii s : ascii_only (encode_basestring_ascii s).
Proof.
  unfold encode_basestring_ascii.
  apply ascii_only_app; [repeat constructor |].
  apply ascii_only_app; [| repeat constructor].
  induction s as [|c s IH]; cbn [flat_map]; [constructor |].
  apply ascii_only_app; [apply encode_char_ascii | exact IH].
Qed.

Lemma lit_cons a s : lit (String a s) = N_of_ascii a :: lit s.
Proof. reflexivity. Qed.

Lemma string_of_uint_ascii d : ascii_only (lit (NilEmpty.string_of_uint d)).
Proof.
  induction d; cbn [NilEmpty.string_of_uint];
    [constructor | rewrite lit_cons; constructor; [reflexivity | assumption] ..].
Qed.

Lemma intstr_ascii n : ascii_only (intstr n).
Proof.
  unfold intstr, NilZero.string_of_int.
  destruct (Z.to_int n) as [d|d].
  - unfold NilZero.string_of_uint. destruct d;
      [apply ascii_only_check; reflexivity | apply string_of_uint_ascii ..].
  - rewrite lit_cons. constructor; [reflexivity |].
    unfold NilZero.string_of_uint. destruct d;
      [apply ascii_only_check; reflexivity | apply string_of_uint_ascii ..].
Qed.

Lemma newline_indent_ascii level : ascii_only (newline_indent level).
Proof.
  unfold newline_indent. constructor; [reflexivity |].
  induction (2 * level)%nat as [|n IH]; cbn [repeat]; constructor;
    [reflexivity | exact IH].
Qed.

Lemma then_ascii (a b : chunks) :
  ascii_only a.1 -> ascii_only b.1 -> ascii_only (then_ a b).1.
Proof.
  destruct a as [s [x|]]; cbn [then_ fst]; [tauto |].
  apply ascii_only_app.
Qed.

(** An induction principle that reaches the values inside lists and
    dicts. *)
Lemma pyval_nested_ind (P : pyval -> Prop) :
  P PyNone ->
  (forall b, P (PyBool b)) ->
  (forall n, P (PyInt n)) ->
  (forall x, P (PyFloat x)) ->
  (forall s, P (PyStr s)) ->
  (forall l, Forall P l -> P (PyList l)) ->
  (forall d, Forall (fun kv => P kv.2) d -> P (PyDict d)) ->
  (forall cls, P (PyObj cls)) ->
  forall v, P v.
Proof.
  intros HNone HBool HInt HFloat HStr HList HDict HObj.
  fix IH 1. intros [| b | n | x | s | l | d | cls].
  - exact HNone.
  - apply HBool.
  - apply HInt.
  - apply HFloat.
  - apply HStr.
  - apply HList. induction l as [|v l IHl]; constructor; [apply IH | exact IHl].
  - apply HDict. induction d as [|[k v] d IHd]; constructor; [apply IH | exact IHd].
  - apply HObj.
Qed.

Section EncoderAscii.
Variable float_repr : float -> pystr.
Hypothesis float_repr_ascii : forall x, ascii_only (float_repr x).

Lemma floatstr_ascii x : ascii_only (floatstr float_repr x).
Proof.
  unfold floatstr.
  repeat match goal with
         | |- context [if ?b then _ else _] => destruct b
         end;
    try (apply ascii_only_check; reflexivity).
  apply float_repr_ascii.
Qed.

Lemma iterencode_ascii o : forall level, ascii_only (iterencode float_repr o level).1.
Proof.
  induction o as [| b | n | x | s | l IH | d IH | cls] using pyval_nested_ind;
    intros level.
  - apply ascii_only_check; reflexivity.
  - destruct b; apply ascii_only_check; reflexivity.
  - apply intstr_ascii.
  - apply floatstr_ascii.
  - apply encode_basestring_ascii_ascii.
  - destruct l as [|v l]; [apply ascii_only_check; reflexivity |].
    cbn [iterencode]. apply Forall_cons in IH as (Hv & Hl).
    apply then_ascii;
      [| apply ascii_only_app;
         [apply newline_indent_ascii | apply ascii_only_check; reflexivity]].
    apply then_ascii;
      [apply ascii_only_app;
         [apply ascii_only_check; reflexivity | apply newline_indent_ascii] |].
    apply then_ascii; [apply Hv |].
    match goal with
    | |- ascii_only (?items false l).1 =>
        enough (Hitems : forall first, ascii_only (items first l).1)
          by apply Hitems
    end.
    induction Hl as [|w l Hw _ IHl]; intros first; cbv beta iota.
    + constructor.
    + apply then_ascii; [| apply then_ascii; [apply Hw | apply IHl]].
      apply ascii_only_app; [| apply newline_indent_ascii].
      destruct first; apply ascii_only_check; reflexivity.
  - destruct d as [|[k v] d]; [apply ascii_only_check; reflexivity |].
    cbn [iterencode]. apply Forall_cons in IH as (Hv & Hd).
    apply then_ascii;
      [| apply ascii_only_app;
         [apply newline_indent_ascii | apply ascii_only_check; reflexivity]].
    apply then_ascii;
      [apply ascii_only_app;
         [apply ascii_only_check; reflexivity
         | apply ascii_only_app;
           [apply newline_indent_ascii
           | apply ascii_only_app;
             [apply encode_basestring_ascii_ascii
             | apply ascii_only_check; reflexivity]]] |].
    apply then_ascii; [apply Hv |].
    match goal with
    | |- ascii_only (?items false d).1 =>
        enough (Hitems : forall first, ascii_only (items first d).1)
          by apply Hitems
    end.
    induction Hd as [|[k' w] d Hw _ IHd]; intros first; cbv beta iota.
    + constructor.
    + apply then_ascii; [| apply then_ascii; [apply Hw | apply IHd]].
      apply ascii_only_app;
        [destruct first; apply ascii_only_check; reflexivity
        | apply ascii_only_app;
          [apply newline_indent_ascii
          | apply ascii_only_app;
            [apply encode_basestring_ascii_ascii
            | apply ascii_only_check; reflexivity]]].
  - constructor.
Qed.
End EncoderAscii.

(** ** Stages of the run *)

Lemma pure_io_ret {A} (a : A) : pure_io (ret a).
Proof. exists (Ok a), []. split; [reflexivity | constructor]. Qed.

Lemma pure_io_lift {A} (r : result A) : pure_io (lift r).
Proof. exists r, []. split; [reflexivity | constructor]. Qed.

Lemma pure_io_print m : pure_io (print m).
Proof.
  unfold pure_io, print. destruct (printable m).
  - exists (Ok tt), [Print m]. split; [reflexivity |]. repeat constructor.
  - exists (Raise UnicodeEncodeError), []. split; [reflexivity | constructor].
Qed.

Lemma pure_io_bind {A B} (m : M A) (k : A -> M B) :
  pure_io m -> (forall a, pure_io (k a)) -> pure_io (mbind m k).
Proof.
  intros (r & ev & Hm & Hev) Hk. destruct r as [a|x].
  - destruct (Hk a) as (r' & ev' & Hka & Hev').
    exists r', (ev ++ ev'). split; [| now apply Forall_app].
    intros fs. unfold mbind. now rewrite Hm, Hka.
  - exists (Raise x), ev. split; [| exact Hev].
    intros fs. unfold mbind. now rewrite Hm.
Qed.

Lemma preview_line_pure word : pure_io (preview_line word).
Proof.
  unfold preview_line.
  repeat (apply pure_io_bind; [apply pure_io_lift | intros ?]).
  apply pure_io_print.
Qed.

Lemma for_each_io_pure items : pure_io (for_each_io items preview_line).
Proof.
  induction items as [|x items IH]; cbn [for_each_io].
  - apply pure_io_ret.
  - apply pure_io_bind; [apply preview_line_pure | intros _; exact IH].
Qed.

Lemma report_stage_pure json_data : pure_io (report_stage json_data).
Proof.
  unfold report_stage.
  repeat (apply pure_io_bind;
          [first [apply pure_io_lift | apply pure_io_print] | intros ?]).
  apply for_each_io_pure.
Qed.

Lemma json_dump_complete e t :
  (json_dump e t).2 = None -> json_dump e t = iterencode (float_repr e) t 0.
Proof.
  unfold json_dump. destruct (disk_room e) as [room|]; [| reflexivity].
  destruct (room <? length (iterencode (float_repr e) t 0).1)%nat;
    [discriminate | reflexivity].
Qed.

Lemma quiet_engine ev : Forall quiet ev -> Forall (fun x => engine_event x = false) ev.
Proof. intros H. eapply Forall_impl; [exact H |]. intros x [Hx _]. exact Hx. Qed.

Lemma quiet_write ev : Forall quiet ev -> Forall (fun x => write_event x = false) ev.
Proof. intros H. eapply Forall_impl; [exact H |]. intros x [_ Hx]. exact Hx. Qed.

Lemma publish_stage_run e res :
  exists r w ev,
    (forall fs, publish_stage e res fs = (r, put output_json w fs, ev))
    /\ published e res r w ev.
Proof.
  unfold publish_stage, published.
  destruct (convert_to_json_format res) as [t|x] eqn:Hconv.
  - destruct (can_open e) eqn:Hopen.
    + destruct (report_stage_pure t) as (r' & ev' & Hrep & Hev').
      destruct (json_dump e t).2 as [x|] eqn:Hdump.
      * exists (Raise x), (Some (json_dump e t).1),
          [Print (MsgSaving output_json); OpenW output_json].
        split; [| split].
        -- intros fs. unfold mbind, lift, print, write_json. cbn [printable]. cbv zeta.
           rewrite Hopen, Hdump. cbn [put]. now rewrite insert_insert_eq.
        -- repeat constructor.
        -- right. exists t. split; [reflexivity |]. split; [reflexivity |].
           split; [cbn; tauto |].
           intros y Hy. rewrite Hdump in Hy. now injection Hy as <-.
      * exists r', (Some (json_dump e t).1),
          ([Print (MsgSaving output_json); OpenW output_json] ++ ev').
        split; [| split].
        -- intros fs. unfold mbind, lift, print, write_json. cbn [printable]. cbv zeta.
           rewrite Hopen, Hdump, Hrep. cbn [put]. now rewrite insert_insert_eq.
        -- apply Forall_app. split; [repeat constructor | now apply quiet_engine].
        -- right. exists t. split; [reflexivity |]. split; [reflexivity |].
           split; [cbn; tauto |].
           intros y Hy. rewrite Hdump in Hy. discriminate.
    + exists (Raise OSError), None, [Print (MsgSaving output_json)].
      split; [| split].
      * intros fs. unfold mbind, lift, print, write_json. cbn [printable]. now rewrite Hopen.
      * repeat constructor.
      * left. split; [reflexivity |]. split; [repeat constructor | eauto].
  - exists (Raise x), None, []. split; [| split].
    + intros fs. reflexivity.
    + constructor.
    + left. split; [reflexivity |]. split; [constructor | eauto].
Qed.

Lemma after_extraction_run e clip :
  exists r w ev,
    (forall fs, fs !! temp_audio = clip ->
                after_extraction e fs = (r, put output_json w fs, ev))
    /\ delivered e clip r w ev.
Proof.
  unfold after_extraction, transcribe_audio, delivered.
  destruct (load_model e) as [x|] eqn:Hload.
  - exists (Raise x), None, [Print MsgLoading; LoadModel "base"].
    split.
    + intros fs _. unfold mbind, print, whisper_load_model. cbn [printable]. now rewrite Hload.
    + left. split; [reflexivity |]. split; [repeat constructor | eauto].
  - destruct (transcribe e clip) as [res|x] eqn:Htr.
    + destruct (publish_stage_run e res) as (r & w & ev & Hrun & _ & Hpub).
      exists r, w,
        ([Print MsgLoading; LoadModel "base"; Print (MsgTranscribing temp_audio);
          Print MsgMayTakeAMinute; Transcribe temp_audio] ++ ev).
      split.
      * intros fs Hclip.
        unfold mbind, print, whisper_load_model, model_transcribe, ret. cbn [printable].
        rewrite Hload, Hclip, Htr, Hrun. reflexivity.
      * destruct Hpub as [(-> & Hev & Hr) | (t & Hc & -> & Hin & Hr)].
        -- left. split; [reflexivity |]. split; [| exact Hr].
           apply Forall_app. split; [repeat constructor | exact Hev].
        -- right. exists res, t. repeat split; try assumption.
           apply in_or_app. now right.
    + exists (Raise x), None,
        [Print MsgLoading; LoadModel "base"; Print (MsgTranscribing temp_audio);
         Print MsgMayTakeAMinute; Transcribe temp_audio].
      split.
      * intros fs Hclip.
        unfold mbind, print, whisper_load_model, model_transcribe, ret. cbn [printable].
        now rewrite Hload, Hclip, Htr.
      * left. split; [reflexivity |]. split; [repeat constructor | eauto].
Qed.

Lemma extract_run e a o input :
  a <> o ->
  exists r w ev,
    (forall fs, fs !! a = input ->
                extract_first_60_seconds e a o fs = (r, put o w fs, ev))
    /\ Forall quiet ev
    /\ (tool_delivers e -> (exists v, r = Ok v) -> is_Some w).
Proof.
  intros Hne. assert (Hne' : o <> a) by congruence.
  unfold extract_first_60_seconds.
  destruct (ffmpeg e (copy_cmd a o) input) as [p1|x1 w1] eqn:H1.
  - destruct (returncode p1 =? 0)%Z eqn:Hrc1.
    + exists (Ok o), (wrote p1),
        [Print (MsgExtracting a); Subprocess (copy_cmd a o); Print (MsgSavedTo o)].
      split; [| split].
      * intros fs Hfs. unfold mbind, print, subprocess_run, ret. cbn [printable].
        cbn [nth List.last copy_cmd]. now rewrite Hfs, H1, Hrc1.
      * repeat constructor.
      * intros Htool _. apply (Htool _ _ _ H1). now apply Z.eqb_eq.
    + destruct (ffmpeg e (reencode_cmd a o) input) as [p2|x2 w2] eqn:H2.
      * destruct (returncode p2 =? 0)%Z eqn:Hrc2.
        -- exists (Ok o), (match wrote p2 with Some c => Some c | None => wrote p1 end),
             [Print (MsgExtracting a); Subprocess (copy_cmd a o); Print MsgCopyFailed;
              Subprocess (reencode_cmd a o); Print (MsgSavedTo o)].
           split; [| split].
           ++ intros fs Hfs. unfold mbind, print, subprocess_run, ret. cbn [printable].
              cbn [nth List.last copy_cmd reencode_cmd].
              rewrite Hfs, H1, Hrc1. cbn [negb].
              rewrite (lookup_put_ne _ _ _ _ Hne'), Hfs, H2, Hrc2, put_put.
              reflexivity.
           ++ repeat constructor.
           ++ intros Htool _. apply Z.eqb_eq in Hrc2.
              destruct (Htool _ _ _ H2 Hrc2) as [c ->]. eauto.
        -- exists (Raise (Exception_ (lit "ffmpeg failed: " ++ stderr p2))),
             (match wrote p2 with Some c => Some c | None => wrote p1 end),
             [Print (MsgExtracting a); Subprocess (copy_cmd a o); Print MsgCopyFailed;
              Subprocess (reencode_cmd a o)].
           split; [| split].
           ++ intros fs Hfs. unfold mbind, print, subprocess_run, ret, raise. cbn [printable].
              cbn [nth List.last copy_cmd reencode_cmd].
              rewrite Hfs, H1, Hrc1. cbn [negb].
              rewrite (lookup_put_ne _ _ _ _ Hne'), Hfs, H2, Hrc2, put_put.
              reflexivity.
           ++ repeat constructor.
           ++ intros _ (v & [=]).
      * exists (Raise x2), (match w2 with Some c => Some c | None => wrote p1 end),
          [Print (MsgExtracting a); Subprocess (copy_cmd a o); Print MsgCopyFailed;
           Subprocess (reencode_cmd a o)].
        split; [| split].
        -- intros fs Hfs. unfold mbind, print, subprocess_run, ret, raise. cbn [printable].
           cbn [nth List.last copy_cmd reencode_cmd].
           rewrite Hfs, H1, Hrc1. cbn [negb].
           rewrite (lookup_put_ne _ _ _ _ Hne'), Hfs, H2, put_put. reflexivity.
        -- repeat constructor.
        -- intros _ (v & [=]).
  - exists (Raise x1), w1, [Print (MsgExtracting a); Subprocess (copy_cmd a o)].
    split; [| split].
    + intros fs Hfs. unfold mbind, print, subprocess_run. cbn [printable].
      cbn [nth List.last copy_cmd]. now rewrite Hfs, H1.
    + repeat constructor.
    + intros _ (v & [=]).
Qed.

(** ** The run as a whole *)

Lemma main_try_stages e :
  main_try e
  = mbind (extract_first_60_seconds e audio_file temp_audio)
          (fun _ => after_extraction e).
Proof. reflexivity. Qed.

Lemma main_try_extract_raises e fs x fs1 ev1 :
  extract_first_60_seconds e audio_file temp_audio fs = (Raise x, fs1, ev1) ->
  main_try e fs = (Raise x, fs1, ev1).
Proof. intros H. rewrite main_try_stages. unfold mbind. now rewrite H. Qed.

Lemma main_try_run e input stale :
  exists r wt wo ev,
    (forall fs, fs !! audio_file = input -> fs !! temp_audio = stale ->
       main_try e fs = (r, put output_json wo (put temp_audio wt fs), ev))
    /\ ((wo = None /\ Forall (fun x => write_event x = false) ev
         /\ exists x, r = Raise x)
        \/ (exists c res t,
              transcribe e c = Ok res
              /\ convert_to_json_format res = Ok t
              /\ wo = Some (json_dump e t).1
              /\ In (OpenW output_json) ev
              /\ forall x, (json_dump e t).2 = Some x -> r = Raise x)).
Proof.
  destruct (extract_run e audio_file temp_audio input audio_ne_temp)
    as (r1 & wt & ev1 & Hx & Hq & _).
  destruct r1 as [v|x].
  - set (clip := match wt with Some c => Some c | None => stale end).
    destruct (after_extraction_run e clip) as (r & wo & ev2 & Ha & Hd).
    exists r, wt, wo, (ev1 ++ ev2). split.
    + intros fs Hin Hst. rewrite main_try_stages. unfold mbind.
      rewrite (Hx fs Hin), Ha; [reflexivity |].
      rewrite lookup_put_eq, Hst. reflexivity.
    + destruct Hd as [(-> & Hev & Hr) | (res & t & Htr & Hc & -> & Hin & Hr)].
      * left. split; [reflexivity |]. split; [| exact Hr].
        apply Forall_app. split; [now apply quiet_write | exact Hev].
      * right. exists clip, res, t. repeat split; try assumption.
        apply in_or_app. now right.
  - exists (Raise x), wt, None, ev1. split.
    + intros fs Hin _. apply main_try_extract_raises. now apply Hx.
    + left. split; [reflexivity |]. split; [now apply quiet_write | eauto].
Qed.

Lemma cleanup_not_write (fs : filesys) :
  Forall (fun x => write_event x = false)
    (if bool_decide (is_Some (fs !! temp_audio))
     then [Remove temp_audio; Print MsgCleanedUp] else []).
Proof. destruct (bool_decide _); repeat constructor. Qed.

Lemma not_write_not_open ev :
  Forall (fun x => write_event x = false) ev -> ~ In (OpenW output_json) ev.
Proof.
  intros H Hin. rewrite Forall_forall in H.
  apply list_elem_of_In in Hin. specialize (H _ Hin). discriminate.
Qed.

Lemma main_output e fs :
  let '(st, fs', evs) := main e fs in
  (~ In (OpenW output_json) evs
   /\ fs' !! output_json = fs !! output_json
   /\ st <> Returned)
  \/ (In (OpenW output_json) evs
      /\ exists c res t,
           transcribe e c = Ok res
           /\ convert_to_json_format res = Ok t
           /\ fs' !! output_json = Some (json_dump e t).1
           /\ (st = Returned -> (json_dump e t).2 = None)).
Proof.
  destruct (fs !! audio_file) as [a0|] eqn:Hin.
  - destruct (main_try_run e (Some a0) (fs !! temp_audio))
      as (r & wt & wo & ev & Hrun & Hprops).
    assert (His : is_Some (fs !! audio_file)) by (rewrite Hin; eauto).
    rewrite (main_run e fs _ _ _ His (Hrun fs Hin eq_refl)).
    rewrite (lookup_delete_ne _ _ _ temp_ne_output), lookup_put_eq.
    destruct Hprops as [(-> & Hev & x & ->) | (c & res & t & Htr & Hc & -> & Hopen & Hr)].
    + left. split; [| split].
      * apply not_write_not_open, Forall_app.
        split; [exact Hev | apply cleanup_not_write].
      * apply lookup_put_ne, temp_ne_output.
      * discriminate.
    + right. split; [apply in_or_app; now left |].
      exists c, res, t. repeat split; try assumption.
      destruct r as [u|x]; [| discriminate]. intros _.
      destruct (json_dump e t).2 as [y|] eqn:Hy; [| reflexivity].
      discriminate (Hr y eq_refl).
  - unfold main. rewrite bool_decide_eq_false_2.
    + left. split; [| split].
      * intros [[=] | [[=] | []]].
      * reflexivity.
      * discriminate.
    + rewrite Hin. intros [y Hy]. discriminate.
Qed.

(** ** Orchestrator: what reaches the output file *)

Lemma cleanup_quiet (fs : filesys) :
  Forall quiet
    (if bool_decide (is_Some (fs !! temp_audio))
     then [Remove temp_audio; Print MsgCleanedUp] else []).
Proof. destruct (bool_decide _); repeat constructor. Qed.

(** C4, as the code has it.  The output file is left as it was unless the
    run comes to open it: a missing input, a failed extraction, an engine
    or formatting error and a failure to open the file leave it untouched.
    Once the file is opened its former content is gone and it holds what
    [json.dump] wrote, which is the full text of the Transcript when the
    dump completes, as it does in every run that returns normally.  When
    extraction fails, the run ends with that exception, the engine is not
    called and the output file is neither written nor overwritten. *)
Theorem output_untouched_unless_opened e fs :
  let '(st, fs', evs) := main e fs in
  (~ In (OpenW output_json) evs -> fs' !! output_json = fs !! output_json)
  /\ (In (OpenW output_json) evs ->
      exists c res t,
        transcribe e c = Ok res
        /\ convert_to_json_format res = Ok t
        /\ fs' !! output_json = Some (json_dump e t).1
        /\ ((json_dump e t).2 = None ->
            json_dump e t = iterencode (float_repr e) t 0)
        /\ (st = Returned -> (json_dump e t).2 = None))
  /\ (st = Returned -> In (OpenW output_json) evs)
  /\ (forall x,
        is_Some (fs !! audio_file) ->
        (extract_first_60_seconds e audio_file temp_audio fs).1.1 = Raise x ->
        st = Uncaught x
        /\ Forall quiet evs
        /\ fs' !! output_json = fs !! output_json).
Proof.
  pose proof (main_output e fs) as Hout.
  assert (Hfail : forall x,
    is_Some (fs !! audio_file) ->
    (extract_first_60_seconds e audio_file temp_audio fs).1.1 = Raise x ->
    (main e fs).1.1 = Uncaught x
    /\ Forall quiet (main e fs).2
    /\ (main e fs).1.2 !! output_json = fs !! output_json).
  { intros x His Hx.
    destruct (extract_run e audio_file temp_audio (fs !! audio_file) audio_ne_temp)
      as (r1 & wt & ev1 & Hrun & Hq & _).
    specialize (Hrun fs eq_refl). rewrite Hrun in Hx. cbn [fst] in Hx. subst r1.
    rewrite (main_run e fs _ _ _ His (main_try_extract_raises _ _ _ _ _ Hrun)).
    cbn [fst snd]. split; [reflexivity |]. split.
    - apply Forall_app. split; [exact Hq | apply cleanup_quiet].
    - rewrite (lookup_delete_ne _ _ _ temp_ne_output).
      apply lookup_put_ne, temp_ne_output. }
  destruct (main e fs) as [[st fs'] evs]. cbn [fst snd] in Hfail.
  split; [| split; [| split]].
  - intros Hno. destruct Hout as [(_ & H & _) | (Hin & _)]; [exact H | contradiction].
  - intros Hin.
    destruct Hout as [(Hno & _) | (_ & c & res & t & Htr & Hc & Hf & Hst)];
      [contradiction |].
    exists c, res, t. repeat split; try assumption.
    apply json_dump_complete.
  - intros ->. destruct Hout as [(_ & _ & Hne) | (Hin & _)]; [congruence | exact Hin].
  - exact Hfail.
Qed.

Lemma then_prefix (a b : chunks) : exists t, (then_ a b).1 = a.1 ++ t.
Proof.
  destruct a as [s [x|]]; cbn [then_ fst].
  - exists []. now rewrite app_nil_r.
  - now exists b.1.
Qed.

Lemma transcript_text_nonempty f ws level :
  (iterencode f (Transcript ws) level).1 <> [].
Proof.
  unfold Transcript. cbn [iterencode].
  match goal with
  | |- (then_ ?a ?b).1 <> [] => destruct (then_prefix a b) as (t & ->)
  end.
  match goal with
  | |- (then_ ?a ?b).1 ++ _ <> [] => destruct (then_prefix a b) as (t' & ->)
  end.
  cbn [yield fst]. change (lit "{") with [123%N]. discriminate.
Qed.

(** A run whose tool fails under both strategies, over an output file of
    an earlier run. *)
Lemma output_untouched_unless_opened_example :
  (main env_tool_fails fs_with_output).1.1
  = Uncaught (Exception_ (lit "ffmpeg failed: " ++ lit "Invalid data found"))
  /\ Forall quiet (main env_tool_fails fs_with_output).2
  /\ (main env_tool_fails fs_with_output).1.2 !! output_json
     = fs_with_output !! output_json.
Proof.
  pose proof (output_untouched_unless_opened env_tool_fails fs_with_output) as H.
  destruct (main env_tool_fails fs_with_output) as [[st fs'] evs].
  destruct H as (_ & _ & _ & H).
  apply H; [eexists; reflexivity | reflexivity].
Defined.

(** All or nothing fails: on a device with no room left the run opens
    the output file of an earlier run, which empties it, and then fails to
    write. *)
Lemma output_truncated_when_disk_full :
  fs_with_output !! output_json = Some (lit "{}")
  /\ (main env_disk_full fs_with_output).1.1 = Uncaught OSError
  /\ (main env_disk_full fs_with_output).1.2 !! output_json = Some []
  /\ ~ all_or_nothing env_disk_full fs_with_output.
Proof.
  assert (H0 : fs_with_output !! output_json = Some (lit "{}"))
    by (vm_compute; reflexivity).
  assert (H1 : (main env_disk_full fs_with_output).1.1 = Uncaught OSError)
    by (vm_compute; reflexivity).
  assert (H2 : (main env_disk_full fs_with_output).1.2 !! output_json = Some [])
    by (vm_compute; reflexivity).
  split; [exact H0 |]. split; [exact H1 |]. split; [exact H2 |].
  unfold all_or_nothing.
  destruct (main env_disk_full fs_with_output) as [[st fs'] evs].
  cbn [fst snd] in H2. rewrite H2, H0.
  intros [Hsame | (ws & text & Henc & Htext)].
  - discriminate Hsame.
  - injection Htext as <-.
    apply (transcript_text_nonempty (float_repr env_disk_full) ws 0%nat).
    now rewrite Henc.
Qed.

(** The same happens when the encoder meets a value it cannot serialise:
    the file is left with the text up to that value. *)
Lemma output_partial_when_unserialisable :
  (main env_odd_stamp fs_with_output).1.1 = Uncaught TypeError
  /\ exists word,
       (main env_odd_stamp fs_with_output).1.2 !! output_json
       = Some (lit "{" ++ [10] ++ lit "  " ++ [34] ++ lit "words" ++ [34] ++ lit ": [" ++ [10]
               ++ lit "    {" ++ [10] ++ lit "      " ++ word ++ lit "," ++ [10]
               ++ lit "      " ++ [34] ++ lit "start" ++ [34] ++ lit ": ").
Proof.
  split; [vm_compute; reflexivity |].
  exists ([34] ++ lit "word" ++ [34] ++ lit ": " ++ [34] ++ lit "Hello" ++ [34])%list.
  vm_compute. reflexivity.
Qed.

(** ** The JSON encoder: errors, and what the text holds *)

Lemma then_snd (a b : chunks) :
  (then_ a b).2 = match a.2 with Some x => Some x | None => b.2 end.
Proof. destruct a as [s [x|]]; reflexivity. Qed.

Lemma iterencode_error f v level :
  (iterencode f v level).2 = if serialisable v then None else Some TypeError.
Proof.
  revert level.
  induction v as [| b | n | x | s | l IH | d IH | cls] using pyval_nested_ind;
    intros level; try reflexivity.
  - destruct b; reflexivity.
  - destruct l as [|v l]; [reflexivity |].
    cbn [iterencode]. apply Forall_cons in IH as (Hv & Hl).
    rewrite !then_snd, Hv. cbn [yield snd serialisable forallb].
    destruct (serialisable v); cbn [andb]; [| reflexivity].
    match goal with
    | |- match (?items false l).2 with _ => _ end = _ =>
        enough (Hitems : forall first,
                  (items first l).2
                  = if forallb serialisable l then None else Some TypeError)
          by (rewrite Hitems; now destruct (forallb serialisable l))
    end.
    induction Hl as [|w l Hw _ IHl]; intros first; cbv beta iota; [reflexivity |].
    rewrite !then_snd, Hw, IHl. cbn [yield snd forallb].
    destruct (serialisable w); reflexivity.
  - destruct d as [|[k v] d]; [reflexivity |].
    cbn [iterencode]. apply Forall_cons in IH as (Hv & Hd). cbn [snd] in Hv.
    rewrite !then_snd, Hv. cbn [yield snd serialisable forallb].
    destruct (serialisable v); cbn [andb]; [| reflexivity].
    match goal with
    | |- match (?items false d).2 with _ => _ end = _ =>
        enough (Hitems : forall first,
                  (items first d).2
                  = if forallb (fun '(_, x) => serialisable x) d
                    then None else Some TypeError)
          by (rewrite Hitems;
              now destruct (forallb (fun '(_, x) => serialisable x) d))
    end.
    induction Hd as [|[k' w] d Hw _ IHd]; intros first; cbv beta iota; [reflexivity |].
    cbn [snd] in Hw.
    rewrite !then_snd, Hw, IHd. cbn [yield snd forallb].
    destruct (serialisable w); reflexivity.
Qed.

(** ** Formatter: shape of the output *)

Lemma for_each_invariant {S} (P : S -> Prop) (body : pyval -> S -> result S) :
  (forall x s s', body x s = Ok s' -> P s -> P s') ->
  forall l s s', for_each l body s = Ok s' -> P s -> P s'.
Proof.
  intros Hbody l. induction l as [|x l IH]; intros s s'; cbn [for_each].
  - intros [= <-] Hs. exact Hs.
  - destruct (body x s) as [s1|e] eqn:Hx; cbn [bind]; [| discriminate].
    intros Hl Hs. apply (IH s1 s' Hl). now apply (Hbody x s s1).
Qed.

Lemma for_each_app {S} (body : pyval -> S -> result S) l1 l2 s :
  for_each (l1 ++ l2) body s = (s1 <~ for_each l1 body s ;; for_each l2 body s1)%py.
Proof.
  revert s. induction l1 as [|x l1 IH]; intros s; cbn [for_each app bind].
  - reflexivity.
  - destruct (body x s) as [s1|e]; cbn [bind]; [apply IH | reflexivity].
Qed.

Lemma word_record_shape v rec : word_record v = Ok rec -> is_word_record rec.
Proof.
  unfold word_record.
  destruct (py_getitem v (lit "word")) as [w|] eqn:Hw; cbn [bind]; [| discriminate].
  destruct w as [| | | | t | | |]; cbn [py_strip bind]; try discriminate.
  destruct (py_getitem v (lit "start")) as [s|]; cbn [bind]; [| discriminate].
  destruct (py_getitem v (lit "end")) as [e|]; cbn [bind]; [| discriminate].
  intros [= <-]. exists (strip t), s, e. split; [reflexivity |].
  destruct (strip_trimmed t) as (_ & Hhd & Htl). now split.
Qed.

Lemma segment_loop_shape seg words words' :
  segment_loop seg words = Ok words' ->
  Forall is_word_record words -> Forall is_word_record words'.
Proof.
  unfold segment_loop.
  destruct (py_get seg (lit "words") (PyList [])) as [ws|]; cbn [bind]; [| discriminate].
  destruct (py_iter ws) as [word_infos|]; cbn [bind]; [| discriminate].
  apply for_each_invariant. intros x s s'.
  destruct (word_record x) as [r|] eqn:Hr; cbn [bind]; [| discriminate].
  intros [= <-] Hs. apply Forall_app. split; [exact Hs |].
  constructor; [| constructor]. now apply (word_record_shape x).
Qed.

Lemma convert_output_shape r out :
  convert_to_json_format r = Ok out ->
  exists ws, out = Transcript ws /\ Forall is_word_record ws.
Proof.
  unfold convert_to_json_format.
  destruct (py_get r (lit "segments") (PyList [])) as [segs|]; cbn [bind]; [| discriminate].
  destruct (py_iter segs) as [segments|]; cbn [bind]; [| discriminate].
  destruct (for_each segments segment_loop []) as [words|] eqn:Hloop; cbn [bind];
    [| discriminate].
  intros [= <-]. exists words. split; [reflexivity |].
  apply (for_each_invariant (Forall is_word_record) segment_loop
           segment_loop_shape segments [] words Hloop).
  constructor.
Qed.

(** ** Orchestrator: the output is ASCII *)

Lemma json_dump_ascii e t :
  (forall x, ascii_only (float_repr e x)) -> ascii_only (json_dump e t).1.
Proof.
  intros Hf. pose proof (iterencode_ascii _ Hf t 0%nat) as H.
  unfold json_dump. destruct (disk_room e) as [room|]; [| exact H].
  destruct (room <? length _)%nat; [| exact H].
  cbn [fst]. now apply Forall_take.
Qed.

Lemma json_dump_prefix e t :
  exists rest, (iterencode (float_repr e) t 0).1 = (json_dump e t).1 ++ rest.
Proof.
  unfold json_dump. destruct (disk_room e) as [room|].
  - destruct (room <? length _)%nat.
    + cbn [fst]. eexists. symmetry. apply take_drop.
    + exists []. now rewrite app_nil_r.
  - exists []. now rewrite app_nil_r.
Qed.

Lemma encode_char_non_ascii c : 128 <= c -> encode_char c = unicode_escape c.
Proof.
  intros Hc. unfold encode_char, escape_char, unicode_escape.
  replace (c =? 92) with false by (symmetry; apply N.eqb_neq; lia).
  replace (c =? 34) with false by (symmetry; apply N.eqb_neq; lia).
  replace (c =? 8) with false by (symmetry; apply N.eqb_neq; lia).
  replace (c =? 12) with false by (symmetry; apply N.eqb_neq; lia).
  replace (c =? 10) with false by (symmetry; apply N.eqb_neq; lia).
  replace (c =? 13) with false by (symmetry; apply N.eqb_neq; lia).
  replace (c =? 9) with false by (symmetry; apply N.eqb_neq; lia).
  replace (c <=? 126) with false by (symmetry; apply N.leb_gt; lia).
  rewrite andb_false_r. reflexivity.
Qed.

Lemma occurs_in_refl (s : pystr) : occurs_in s s.
Proof. exists [], []. now rewrite app_nil_r. Qed.

Lemma occurs_in_trans (s t u : pystr) : occurs_in s t -> occurs_in t u -> occurs_in s u.
Proof.
  intros (p1 & q1 & ->) (p2 & q2 & ->). exists (p2 ++ p1), (q1 ++ q2).
  now rewrite <- !app_assoc.
Qed.

Lemma occurs_in_app_l (s t u : pystr) : occurs_in s t -> occurs_in s (t ++ u).
Proof.
  intros (p & q & ->). exists p, (q ++ u). now rewrite <- !app_assoc.
Qed.

Lemma occurs_in_app_r (s t u : pystr) : occurs_in s u -> occurs_in s (t ++ u).
Proof.
  intros (p & q & ->). exists (t ++ p), q. now rewrite <- !app_assoc.
Qed.

Lemma then_fst (a b : chunks) : a.2 = None -> (then_ a b).1 = a.1 ++ b.1.
Proof. destruct a as [s [x|]]; [discriminate | reflexivity]. Qed.

Lemma then_complete (a b : chunks) :
  (then_ a b).2 = None -> a.2 = None /\ b.2 = None.
Proof. rewrite then_snd. destruct a.2; [discriminate | tauto]. Qed.

(** When the encoder finishes a list, the text holds the text of every
    item. *)
Lemma iterencode_list_contains f l level v :
  (iterencode f (PyList l) level).2 = None ->
  In v l ->
  occurs_in (iterencode f v (S level)).1 (iterencode f (PyList l) level).1.
Proof.
  intros Hdone Hin. destruct l as [|v0 l]; [destruct Hin |].
  revert Hdone. cbn [iterencode]. intros Hdone.
  apply then_complete in Hdone as [Hdone _].
  rewrite (then_fst _ _ Hdone). apply occurs_in_app_l.
  apply then_complete in Hdone as [_ Hdone].
  rewrite then_fst by reflexivity. apply occurs_in_app_r.
  pose proof Hdone as Hboth. apply then_complete in Hboth as [Hv0 Hrest].
  rewrite (then_fst _ _ Hv0).
  destruct Hin as [-> | Hin]; [apply occurs_in_app_l, occurs_in_refl |].
  apply occurs_in_app_r. clear Hdone Hv0. revert Hrest Hin.
  match goal with
  | |- (?items false l).2 = None -> _ =>
      enough (Hitems : forall l' first,
                (items first l').2 = None -> In v l' ->
                occurs_in (iterencode f v (S level)).1 (items first l').1)
        by apply Hitems
  end.
  induction l' as [|w l' IHl]; intros first Hdone Hin; [destruct Hin |].
  revert Hdone. cbv beta iota. intros Hdone.
  apply then_complete in Hdone as [_ Hdone].
  rewrite then_fst by reflexivity. apply occurs_in_app_r.
  pose proof Hdone as Hboth. apply then_complete in Hboth as [Hw Hrest].
  rewrite (then_fst _ _ Hw).
  destruct Hin as [-> | Hin].
  - apply occurs_in_app_l, occurs_in_refl.
  - apply occurs_in_app_r. now apply IHl.
Qed.

Lemma occurs_in_entry (hdr key text rest : pystr) :
  occurs_in (key ++ lit ": " ++ text) ((hdr ++ key ++ lit ": ") ++ text ++ rest).
Proof. exists hdr, rest. now rewrite <- !app_assoc. Qed.

(** When the encoder finishes a dict, the text holds every key, escaped,
    followed by a colon, a space and the text of its value. *)
Lemma iterencode_dict_contains f d level k v :
  (iterencode f (PyDict d) level).2 = None ->
  In (k, v) d ->
  occurs_in (encode_basestring_ascii k ++ lit ": " ++ (iterencode f v (S level)).1)
    (iterencode f (PyDict d) level).1.
Proof.
  intros Hdone Hin. destruct d as [|[k0 v0] d]; [destruct Hin |].
  revert Hdone. cbn [iterencode]. intros Hdone.
  apply then_complete in Hdone as [Hdone _].
  rewrite (then_fst _ _ Hdone). apply occurs_in_app_l.
  apply then_complete in Hdone as [_ Hdone].
  rewrite then_fst by reflexivity.
  pose proof Hdone as Hboth. apply then_complete in Hboth as [Hv0 Hrest].
  rewrite (then_fst _ _ Hv0). cbn [yield fst]. rewrite (app_assoc _ (newline_indent _)).
  destruct Hin as [[= -> ->] | Hin]; [apply occurs_in_entry |].
  apply occurs_in_app_r, occurs_in_app_r. clear Hdone Hv0. revert Hrest Hin.
  match goal with
  | |- (?items false d).2 = None -> _ =>
      enough (Hitems : forall d' first,
                (items first d').2 = None -> In (k, v) d' ->
                occurs_in
                  (encode_basestring_ascii k ++ lit ": "
                   ++ (iterencode f v (S level)).1)
                  (items first d').1)
        by apply Hitems
  end.
  induction d' as [|[k' w] d' IHd]; intros first Hdone Hin; [destruct Hin |].
  revert Hdone. cbv beta iota. intros Hdone.
  apply then_complete in Hdone as [_ Hdone].
  rewrite then_fst by reflexivity.
  pose proof Hdone as Hboth. apply then_complete in Hboth as [Hw Hrest].
  rewrite (then_fst _ _ Hw). cbn [yield fst]. rewrite (app_assoc _ (newline_indent _)).
  destruct Hin as [[= -> ->] | Hin]; [apply occurs_in_entry |].
  apply occurs_in_app_r, occurs_in_app_r. now apply IHd.
Qed.

(** When the encoder finishes a Transcript, the text holds [: ] and the
    escaped word of every record, hence the escape of every character of a
    word that is not ASCII. *)
Lemma transcript_text_contains f ws t s u :
  (iterencode f (Transcript ws) 0).2 = None ->
  In (PyDict [(lit "word", PyStr t); (lit "start", s); (lit "end", u)]) ws ->
  occurs_in (encode_basestring_ascii t) (iterencode f (Transcript ws) 0).1.
Proof.
  intros Hdone Hin.
  assert (Hser : serialisable (Transcript ws) = true).
  { rewrite iterencode_error in Hdone.
    destruct (serialisable (Transcript ws)); [reflexivity | discriminate]. }
  unfold Transcript in Hser. cbn [serialisable forallb] in Hser.
  rewrite andb_true_r in Hser.
  assert (Hlist : (iterencode f (PyList ws) 1).2 = None).
  { rewrite iterencode_error. cbn [serialisable]. now rewrite Hser. }
  assert (Hrec : (iterencode f
                    (PyDict [(lit "word", PyStr t); (lit "start", s); (lit "end", u)])
                    2).2 = None).
  { rewrite iterencode_error.
    rewrite forallb_forall in Hser. now rewrite (Hser _ Hin). }
  eapply occurs_in_trans;
    [| apply (iterencode_dict_contains f _ 0%nat (lit "words") (PyList ws) Hdone);
       left; reflexivity].
  apply occurs_in_app_r, occurs_in_app_r.
  eapply occurs_in_trans; [| apply (iterencode_list_contains f ws 1%nat _ Hlist Hin)].
  eapply occurs_in_trans;
    [| apply (iterencode_dict_contains f _ 2%nat (lit "word") (PyStr t) Hrec);
       left; reflexivity].
  apply occurs_in_app_r, occurs_in_app_r. apply occurs_in_refl.
Qed.

Lemma encode_basestring_ascii_contains t t1 ch t2 :
  t = t1 ++ ch :: t2 -> occurs_in (encode_char ch) (encode_basestring_ascii t).
Proof.
  intros ->. unfold encode_basestring_ascii.
  apply occurs_in_app_r, occurs_in_app_l.
  rewrite flat_map_app. cbn [flat_map].
  apply occurs_in_app_r, occurs_in_app_l, occurs_in_refl.
Qed.

(** C10.  What the run writes to the output file is ASCII only, and it is
    the JSON text of the flattened Transcript, or the beginning of that
    text when the run fails while writing.  When the run returns, every
    character of a word's text that is not ASCII is in the file as its
    escape: one [\uXXXX], or two (a surrogate pair) above U+FFFF.  The
    encoder escapes every character of a string outside [' '..'~']; this
    for any [float.__repr__] that prints ASCII. *)
Theorem json_output_is_ascii e fs :
  (forall x, ascii_only (float_repr e x)) ->
  let '(st, fs', evs) := main e fs in
  (In (OpenW output_json) evs ->
   exists c res ws text,
     transcribe e c = Ok res
     /\ convert_to_json_format res = Ok (Transcript ws)
     /\ fs' !! output_json = Some text
     /\ ascii_only text
     /\ (exists rest, (iterencode (float_repr e) (Transcript ws) 0).1 = text ++ rest)
     /\ (st = Returned ->
         text = (iterencode (float_repr e) (Transcript ws) 0).1
         /\ forall t s u t1 ch t2,
              In (PyDict [(lit "word", PyStr t); (lit "start", s); (lit "end", u)])
                 ws ->
              t = t1 ++ ch :: t2 -> 128 <= ch ->
              occurs_in (unicode_escape ch) text))
  /\ (forall obj level, ascii_only (iterencode (float_repr e) obj level).1)
  /\ (forall s, ascii_only (encode_basestring_ascii s))
  /\ (forall c, 128 <= c ->
        encode_char c
        = if c <? 0x10000 then lit "\u" ++ hex4 c
          else lit "\u" ++ hex4 (N.lor 0xd800 (N.land (N.shiftr (c - 0x10000) 10) 0x3ff))
               ++ lit "\u" ++ hex4 (N.lor 0xdc00 (N.land (c - 0x10000) 0x3ff))).
Proof.
  intros Hf. pose proof (main_output e fs) as Hout.
  destruct (main e fs) as [[st fs'] evs].
  split; [| split; [| split]].
  - intros Hin.
    destruct Hout as [(Hno & _) | (_ & c & res & t & Htr & Hconv & Hfile & Hret)];
      [contradiction |].
    destruct (convert_output_shape _ _ Hconv) as (ws & -> & _).
    exists c, res, ws, (json_dump e (Transcript ws)).1.
    split; [exact Htr |]. split; [exact Hconv |]. split; [exact Hfile |].
    split; [now apply json_dump_ascii |]. split; [apply json_dump_prefix |].
    intros Hst. specialize (Hret Hst).
    rewrite (json_dump_complete _ _ Hret) in Hret |- *.
    split; [reflexivity |].
    intros t s u t1 ch t2 Hword Ht Hch.
    eapply occurs_in_trans; [| exact (transcript_text_contains _ _ _ _ _ Hret Hword)].
    rewrite <- (encode_char_non_ascii ch Hch).
    exact (encode_basestring_ascii_contains _ _ _ _ Ht).
  - intros obj level. now apply iterencode_ascii.
  - apply encode_basestring_ascii_ascii.
  - intros c Hc. exact (encode_char_non_ascii c Hc).
Qed.

Lemma sample_float_repr_ascii x : ascii_only (sample_float_repr x).
Proof.
  unfold sample_float_repr.
  destruct (PrimFloat.eqb x 0.4); apply ascii_only_check; reflexivity.
Qed.

(** The engine hears a word that ends in U+00E9: the file is ASCII and
    holds that character as [\u00e9]. *)
Lemma json_output_is_ascii_example :
  exists text,
    (main env_accent fs_input).1.2 !! output_json = Some text
    /\ ascii_only text
    /\ occurs_in (lit "\u00e9") text.
Proof.
  pose proof (json_output_is_ascii env_accent fs_input sample_float_repr_ascii) as H.
  assert (Hin : In (OpenW output_json) (main env_accent fs_input).2)
    by (vm_compute; tauto).
  assert (Hst : (main env_accent fs_input).1.1 = Returned) by (vm_compute; reflexivity).
  destruct (main env_accent fs_input) as [[st fs'] evs].
  cbn [fst snd] in Hin, Hst.
  destruct H as (H & _).
  destruct (H Hin) as (c & res & ws & text & Htr & Hconv & Hfile & Hascii & _ & Hret).
  exists text. split; [exact Hfile |]. split; [exact Hascii |].
  injection Htr as <-. vm_compute in Hconv. injection Hconv as <-.
  destruct (Hret Hst) as [_ Hesc].
  apply (Hesc [99; 97; 102; 233] (PyFloat 0.0) (PyFloat 0.4) [99; 97; 102] 233 []).
  - left. reflexivity.
  - reflexivity.
  - lia.
Defined.

(** ** Orchestrator: running twice *)

Lemma delete_put_eq path w (fs : filesys) :
  delete path (put path w fs) = delete path fs.
Proof. destruct w as [c|]; cbn [put]; [apply delete_insert_eq | reflexivity]. Qed.

Lemma delete_put_ne path k w (fs : filesys) :
  k <> path -> delete k (put path w fs) = put path w (delete k fs).
Proof.
  intros H. destruct w as [c|]; cbn [put]; [| reflexivity].
  now apply delete_insert_ne.
Qed.

Lemma put_idem path w (fs : filesys) : put path w (put path w fs) = put path w fs.
Proof. rewrite put_put. now destruct w. Qed.

(** C7.  With a media tool that leaves its output at the destination when
    it succeeds, the tool and the engine being functions of what they read:
    a second run over the files the first one left ends as the first did
    and leaves every file, the output file among them, byte for byte as the
    first left it; after a run that returned normally the second one emits
    the same events and the output file holds the text of the one
    Transcript, written over what was there and not after it. *)
Theorem main_twice e fs :
  tool_delivers e ->
  let '(st1, fs1, ev1) := main e fs in
  let '(st2, fs2, ev2) := main e fs1 in
  st2 = st1
  /\ fs2 = fs1
  /\ (st1 = Returned ->
      ev2 = ev1
      /\ exists c res t text,
           transcribe e c = Ok res
           /\ convert_to_json_format res = Ok t
           /\ iterencode (float_repr e) t 0 = (text, None)
           /\ fs1 !! output_json = Some text
           /\ fs2 !! output_json = Some text).
Proof.
  intros Htool.
  destruct (fs !! audio_file) as [a0|] eqn:Hin.
  - assert (His : is_Some (fs !! audio_file)) by (rewrite Hin; eauto).
    destruct (extract_run e audio_file temp_audio (Some a0) audio_ne_temp)
      as (r1 & wt & evx & Hx & _ & Hdel).
    destruct r1 as [v|x].
    + destruct (Hdel Htool) as [c ->]; [eauto |].
      destruct (after_extraction_run e (Some c)) as (r & wo & eva & Ha & Hd).
      assert (Htry : forall fs0, fs0 !! audio_file = Some a0 ->
                main_try e fs0
                = (r, put output_json wo (put temp_audio (Some c) fs0), evx ++ eva)).
      { intros fs0 H0. rewrite main_try_stages. unfold mbind.
        rewrite (Hx fs0 H0), Ha; [reflexivity |]. apply lookup_insert_eq. }
      assert (Hclip : forall fs0 : filesys,
                bool_decide (is_Some
                  (put output_json wo (put temp_audio (Some c) fs0) !! temp_audio))
                = true).
      { intros fs0. apply bool_decide_eq_true_2.
        rewrite lookup_put_ne by (intros H; symmetry in H; exact (temp_ne_output H)).
        cbn [put]. rewrite lookup_insert_eq. eauto. }
      assert (Hfs : forall fs0 : filesys,
                delete temp_audio (put output_json wo (put temp_audio (Some c) fs0))
                = put output_json wo (delete temp_audio fs0)).
      { intros fs0. rewrite delete_put_ne by exact temp_ne_output.
        now rewrite delete_put_eq. }
      rewrite (main_run e fs _ _ _ His (Htry fs Hin)), Hclip, Hfs.
      assert (Hin1 : put output_json wo (delete temp_audio fs) !! audio_file = Some a0).
      { rewrite lookup_put_ne by (intros H; symmetry in H; exact (audio_ne_output H)).
        rewrite lookup_delete_ne by (intros H; symmetry in H; exact (audio_ne_temp H)).
        exact Hin. }
      assert (His1 : is_Some (put output_json wo (delete temp_audio fs) !! audio_file))
        by (rewrite Hin1; eauto).
      rewrite (main_run e _ _ _ _ His1 (Htry _ Hin1)), Hclip, Hfs.
      assert (Hsame : put output_json wo
                        (delete temp_audio (put output_json wo (delete temp_audio fs)))
                      = put output_json wo (delete temp_audio fs)).
      { rewrite <- (delete_put_ne output_json temp_audio wo) by exact temp_ne_output.
        rewrite put_idem.
        rewrite (delete_put_ne output_json temp_audio wo) by exact temp_ne_output.
        now rewrite delete_delete_eq. }
      rewrite Hsame. split; [reflexivity |]. split; [reflexivity |].
      intros Hret. split; [reflexivity |].
      destruct r as [u|x]; [| discriminate Hret].
      destruct Hd as [(_ & _ & x & [=]) | (res & t & Htr & Hc & -> & _ & Hr)].
      assert (Hfull : (json_dump e t).2 = None).
      { destruct (json_dump e t).2 as [y|] eqn:Hy; [| reflexivity].
        discriminate (Hr y eq_refl). }
      exists (Some c), res, t, (json_dump e t).1.
      split; [exact Htr |]. split; [exact Hc |]. split.
      * rewrite <- (json_dump_complete e t Hfull).
        destruct (json_dump e t) as [text err]. cbn [snd] in Hfull. now subst err.
      * split; cbn [put]; apply lookup_insert_eq.
    + assert (Htry : forall fs0, fs0 !! audio_file = Some a0 ->
                main_try e fs0 = (Raise x, put temp_audio wt fs0, evx)).
      { intros fs0 H0. apply main_try_extract_raises. now apply Hx. }
      rewrite (main_run e fs _ _ _ His (Htry fs Hin)), delete_put_eq.
      assert (Hin1 : delete temp_audio fs !! audio_file = Some a0).
      { rewrite lookup_delete_ne by (intros H; symmetry in H; exact (audio_ne_temp H)).
        exact Hin. }
      assert (His1 : is_Some (delete temp_audio fs !! audio_file))
        by (rewrite Hin1; eauto).
      rewrite (main_run e _ _ _ _ His1 (Htry _ Hin1)), delete_put_eq, delete_delete_eq.
      split; [reflexivity |]. split; [reflexivity |]. discriminate.
  - unfold main. rewrite bool_decide_eq_false_2.
    + rewrite bool_decide_eq_false_2.
      * split; [reflexivity |]. split; [reflexivity |]. discriminate.
      * rewrite Hin. intros [y Hy]. discriminate.
    + rewrite Hin. intros [y Hy]. discriminate.
Qed.

(** Two runs of the scenario. *)
Lemma main_twice_example :
  let '(st1, fs1, ev1) := main env_fine fs_input in
  let '(st2, fs2, ev2) := main env_fine fs1 in
  st2 = st1
  /\ fs2 = fs1
  /\ (st1 = Returned ->
      ev2 = ev1
      /\ exists c res t text,
           transcribe env_fine c = Ok res
           /\ convert_to_json_format res = Ok t
           /\ iterencode (float_repr env_fine) t 0 = (text, None)
           /\ fs1 !! output_json = Some text
           /\ fs2 !! output_json = Some text).
Proof.
  apply (main_twice env_fine fs_input).
  intros cmd input p [= <-] _. eexists. reflexivity.
Defined.

(** * Further properties of the code *)

(** ** Formatter: shape of the output, errors, composition *)

(** X1.  Whatever the engine's result is, when the Formatter returns, it
    returns a Transcript: a dict with the single key ["words"] holding a
    list of records that each have exactly the keys ["word"], ["start"] and
    ["end"], the word being a [str] without whitespace at its ends. *)
Theorem convert_to_json_format_output_schema r out :
  convert_to_json_format r = Ok out ->
  exists ws, out = Transcript ws /\ Forall is_word_record ws.
Proof. apply convert_output_shape. Qed.

Lemma convert_to_json_format_output_schema_example :
  exists ws, scenario_transcript = Transcript ws /\ Forall is_word_record ws.
Proof.
  apply (convert_to_json_format_output_schema scenario_result).
  reflexivity.
Defined.

Lemma segment_loop_words sd l acc :
  assoc (lit "words") sd = Some (PyList l) ->
  segment_loop (PyDict sd) acc
  = for_each l (fun word_info words => r <~ word_record word_info ;; Ok (words ++ [r])) acc.
Proof. intros H. unfold segment_loop, py_get. now rewrite H. Qed.

(** X2.  The Formatter stops at the first entry it cannot convert: when
    the segments and entries before it are well formed and the dict display
    of that entry raises, the Formatter raises the same exception, whatever
    follows, and the records collected so far are lost. *)
Theorem convert_to_json_format_first_error
    d l1 segs1 sd w1 es bad w2 l2 x :
  assoc (lit "segments") d = Some (PyList (l1 ++ PyDict sd :: l2)) ->
  Forall2 is_segment l1 segs1 ->
  assoc (lit "words") sd = Some (PyList (w1 ++ bad :: w2)) ->
  Forall2 is_entry w1 es ->
  word_record bad = Raise x ->
  convert_to_json_format (PyDict d) = Raise x.
Proof.
  intros Hd Hl1 Hsd Hw1 Hbad.
  unfold convert_to_json_format, py_get. rewrite Hd. cbn [default id bind py_iter].
  rewrite for_each_app, (for_each_segments _ _ [] Hl1). cbn [bind for_each].
  rewrite (segment_loop_words _ _ _ Hsd), for_each_app, (for_each_entries _ _ _ Hw1).
  cbn [bind for_each]. now rewrite Hbad.
Qed.

(** A good word, then an entry without ["end"], then a segment that is not
    even a dict. *)
Lemma convert_to_json_format_first_error_example :
  convert_to_json_format
    (PyDict [(lit "segments",
       PyList [PyDict [(lit "words",
                 PyList [PyDict [(lit "word", PyStr (lit " a")); (lit "start", PyFloat 0.0); (lit "end", PyFloat 0.5)];
                         PyDict [(lit "word", PyStr (lit " b")); (lit "start", PyFloat 0.5)];
                         PyNone])];
               PyNone])])
  = Raise (KeyError (lit "end")).
Proof.
  eapply (convert_to_json_format_first_error _ [] [] _
           [PyDict [(lit "word", PyStr (lit " a")); (lit "start", PyFloat 0.0); (lit "end", PyFloat 0.5)]]
           [WordEntry (lit " a") (PyFloat 0.0) (PyFloat 0.5)]
           (PyDict [(lit "word", PyStr (lit " b")); (lit "start", PyFloat 0.5)])
           [PyNone] [PyNone]).
  - reflexivity.
  - constructor.
  - reflexivity.
  - constructor; [| constructor]. eexists. repeat split; reflexivity.
  - reflexivity.
Defined.

Lemma for_each_appending (g : pyval -> result (list pyval))
    (body : pyval -> list pyval -> result (list pyval)) :
  (forall x acc, body x acc = (rs <~ g x ;; Ok (acc ++ rs))%py) ->
  forall l acc,
    for_each l body acc = (ws <~ for_each l body [] ;; Ok (acc ++ ws))%py.
Proof.
  intros Hbody l. induction l as [|x l IH]; intros acc; cbn [for_each bind].
  - now rewrite app_nil_r.
  - rewrite (Hbody x acc), (Hbody x []).
    destruct (g x) as [rs|e]; cbn [bind app]; [| reflexivity].
    rewrite (IH (acc ++ rs)), (IH rs).
    destruct (for_each l body []) as [ws|e]; cbn [bind]; [| reflexivity].
    now rewrite app_assoc.
Qed.

Lemma segment_loop_appending seg acc :
  segment_loop seg acc = (rs <~ segment_loop seg [] ;; Ok (acc ++ rs))%py.
Proof.
  unfold segment_loop.
  destruct (py_get seg (lit "words") (PyList [])) as [ws|]; cbn [bind]; [| reflexivity].
  destruct (py_iter ws) as [word_infos|]; cbn [bind]; [| reflexivity].
  apply (for_each_appending (fun x => r <~ word_record x ;; Ok [r])%py).
  intros x acc'. destruct (word_record x); reflexivity.
Qed.

Lemma convert_with_segments l :
  convert_to_json_format (with_segments l)
  = (words <~ for_each l segment_loop [] ;; Ok (Transcript words))%py.
Proof. reflexivity. Qed.

(** X3.  The Formatter works segment by segment: the Transcript of a
    result whose segments are [l1] followed by [l2] is the Transcript of
    [l1] followed by that of [l2]; if the Formatter raises on [l1] it raises
    the same on the whole, and if it returns on [l1] and raises on [l2] it
    raises that exception on the whole. *)
Theorem convert_to_json_format_app l1 l2 :
  (forall ws1 ws2,
     convert_to_json_format (with_segments l1) = Ok (Transcript ws1) ->
     convert_to_json_format (with_segments l2) = Ok (Transcript ws2) ->
     convert_to_json_format (with_segments (l1 ++ l2)) = Ok (Transcript (ws1 ++ ws2)))
  /\ (forall x,
        convert_to_json_format (with_segments l1) = Raise x ->
        convert_to_json_format (with_segments (l1 ++ l2)) = Raise x)
  /\ (forall ws1 x,
        convert_to_json_format (with_segments l1) = Ok (Transcript ws1) ->
        convert_to_json_format (with_segments l2) = Raise x ->
        convert_to_json_format (with_segments (l1 ++ l2)) = Raise x).
Proof.
  rewrite !convert_with_segments, for_each_app.
  destruct (for_each l1 segment_loop []) as [a1|e1]; cbn [bind].
  - rewrite (for_each_appending (fun seg => segment_loop seg [])
               segment_loop segment_loop_appending l2 a1).
    destruct (for_each l2 segment_loop []) as [a2|e2]; cbn [bind].
    + split; [| split].
      * intros ws1 ws2 [= <-] [= <-]. reflexivity.
      * intros x [=].
      * intros ws1 x _ [=].
    + split; [| split].
      * intros ws1 ws2 _ [=].
      * intros x [=].
      * intros ws1 x _ [= <-]. reflexivity.
  - split; [| split].
    + intros ws1 ws2 [=].
    + intros x [= <-]. reflexivity.
    + intros ws1 x [=].
Qed.

Lemma convert_to_json_format_app_example :
  convert_to_json_format
    (with_segments
       ([with_words [PyDict [(lit "word", PyStr (lit " a")); (lit "start", PyFloat 0.0); (lit "end", PyFloat 0.5)]]]
        ++ [with_words [PyDict [(lit "word", PyStr (lit " b")); (lit "start", PyFloat 0.5); (lit "end", PyFloat 1.0)]]]))
  = Ok (Transcript
          ([PyDict [(lit "word", PyStr (lit "a")); (lit "start", PyFloat 0.0); (lit "end", PyFloat 0.5)]]
           ++ [PyDict [(lit "word", PyStr (lit "b")); (lit "start", PyFloat 0.5); (lit "end", PyFloat 1.0)]])).
Proof.
  apply (proj1 (convert_to_json_format_app _ _)); reflexivity.
Defined.

Lemma lstrip_fixed t :
  (forall c t', t = c :: t' -> isspace c = false) -> lstrip t = t.
Proof.
  intros H. destruct t as [|c t']; [reflexivity |].
  cbn [lstrip]. now rewrite (H c t' eq_refl).
Qed.

Lemma strip_fixed t :
  (forall c t', t = c :: t' -> isspace c = false) ->
  (forall c t', t = t' ++ [c] -> isspace c = false) ->
  strip t = t.
Proof.
  intros Hhd Htl. unfold strip, rstrip. rewrite (lstrip_fixed t Hhd).
  rewrite lstrip_fixed; [apply rev_involutive |].
  intros c u Hu. apply (Htl c (rev u)).
  rewrite <- (rev_involutive t), Hu. reflexivity.
Qed.

Lemma word_record_fixed rec : is_word_record rec -> word_record rec = Ok rec.
Proof.
  intros (t & s & e & -> & Hhd & Htl).
  rewrite (word_record_entry _ (WordEntry t s e)).
  - unfold Word. cbn [we_word we_start we_end]. now rewrite (strip_fixed t Hhd Htl).
  - eexists. repeat split; reflexivity.
Qed.

(** X4.  The Formatter leaves its own output alone: fed the words of a
    Transcript it returned, as one segment, it returns that Transcript
    again (stripping twice strips nothing more). *)
Theorem convert_to_json_format_idempotent r ws :
  convert_to_json_format r = Ok (Transcript ws) ->
  convert_to_json_format (with_segments [with_words ws]) = Ok (Transcript ws).
Proof.
  intros H.
  destruct (convert_output_shape r _ H) as (ws' & [= <-] & Hshape).
  clear H. rewrite convert_with_segments. cbn [for_each bind].
  unfold with_words. rewrite (segment_loop_words _ ws []); [| reflexivity].
  enough (Hloop : forall acc,
            for_each ws (fun word_info words => r <~ word_record word_info ;; Ok (words ++ [r]))%py acc
            = Ok (acc ++ ws)) by now rewrite Hloop.
  induction Hshape as [|rec ws Hrec _ IH]; intros acc; cbn [for_each].
  - now rewrite app_nil_r.
  - rewrite (word_record_fixed rec Hrec). cbn [bind].
    rewrite IH, <- app_assoc. reflexivity.
Qed.

Lemma convert_to_json_format_idempotent_example :
  convert_to_json_format
    (with_segments
       [with_words [PyDict [(lit "word", PyStr (lit "Hello"));
                            (lit "start", PyFloat 0.0); (lit "end", PyFloat 0.4)]]])
  = Ok scenario_transcript.
Proof.
  apply (convert_to_json_format_idempotent scenario_result). reflexivity.
Defined.

Lemma for_each_raises {S} (body : pyval -> S -> result S) l s x :
  for_each l body s = Raise x -> exists y s', In y l /\ body y s' = Raise x.
Proof.
  revert s. induction l as [|y l IH]; intros s; cbn [for_each]; [discriminate |].
  destruct (body y s) as [s1|e] eqn:Hy; cbn [bind].
  - intros H. destruct (IH s1 H) as (z & s' & Hz & Hbody).
    exists z, s'. split; [now right | exact Hbody].
  - intros [= ->]. exists y, s. split; [now left | exact Hy].
Qed.

Lemma word_record_raises v x :
  word_record v = Raise x ->
  x = AttributeError \/ x = TypeError \/ exists k, x = KeyError k /\ In k entry_keys.
Proof.
  unfold word_record, py_getitem, entry_keys.
  destruct v as [| | | | | | d |]; cbn [bind]; try (intros [= <-]; tauto).
  destruct (assoc (lit "word") d) as [w|]; cbn [bind];
    [| intros [= <-]; right; right; eexists; split; [reflexivity | cbn; tauto]].
  destruct w as [| | | | t | | |]; cbn [py_strip bind]; try (intros [= <-]; tauto).
  destruct (assoc (lit "start") d) as [s|]; cbn [bind];
    [| intros [= <-]; right; right; eexists; split; [reflexivity | cbn; tauto]].
  destruct (assoc (lit "end") d) as [e|]; cbn [bind]; [discriminate |].
  intros [= <-]. right; right. eexists. split; [reflexivity | cbn; tauto].
Qed.

(** X5.  The only exceptions the Formatter raises are [AttributeError] (a
    result or segment that is not a dict, a word that is not a [str]),
    [TypeError] (a value that cannot be iterated or subscripted) and the
    [KeyError] of ["word"], ["start"] or ["end"]. *)
Theorem convert_to_json_format_exceptions r x :
  convert_to_json_format r = Raise x ->
  x = AttributeError \/ x = TypeError \/ exists k, x = KeyError k /\ In k entry_keys.
Proof.
  unfold convert_to_json_format.
  destruct r as [| | | | | | d |]; cbn [py_get bind]; try (intros [= <-]; tauto).
  destruct (py_iter (default (PyList []) (assoc (lit "segments") d))) as [segments|] eqn:Hit;
    cbn [bind].
  - destruct (for_each segments segment_loop []) as [words|y] eqn:Hloop; cbn [bind];
      [discriminate |].
    intros [= ->].
    destruct (for_each_raises _ _ _ _ Hloop) as (seg & acc & _ & Hseg).
    revert Hseg. unfold segment_loop.
    destruct seg as [| | | | | | sd |]; cbn [py_get bind]; try (intros [= <-]; tauto).
    destruct (py_iter (default (PyList []) (assoc (lit "words") sd))) as [infos|] eqn:Hit';
      cbn [bind].
    + intros Hinner.
      destruct (for_each_raises _ _ _ _ Hinner) as (wi & acc' & _ & Hwi).
      destruct (word_record wi) as [rec|z] eqn:Hrec; cbn [bind] in Hwi; [discriminate |].
      injection Hwi as ->. now apply (word_record_raises wi).
    + intros [= <-]. revert Hit'.
      destruct (default (PyList []) (assoc (lit "words") sd)); cbn [py_iter];
        try discriminate; intros [= <-]; tauto.
  - intros [= <-]. revert Hit.
    destruct (default (PyList []) (assoc (lit "segments") d)); cbn [py_iter];
      try discriminate; intros [= <-]; tauto.
Qed.

(** A segments value that cannot be iterated. *)
Lemma convert_to_json_format_exceptions_example :
  TypeError = AttributeError \/ TypeError = TypeError
  \/ exists k, TypeError = KeyError k /\ In k entry_keys.
Proof.
  apply (convert_to_json_format_exceptions (PyDict [(lit "segments", PyNone)])).
  reflexivity.
Defined.

(** ** Clip Extractor: the five ways it ends *)

Lemma extract_cases e a o fs :
  match ffmpeg e (copy_cmd a o) (fs !! a) with
  | SpawnError x w =>
      extract_first_60_seconds e a o fs
      = (Raise x, put o w fs, [Print (MsgExtracting a); Subprocess (copy_cmd a o)])
  | Completed p1 =>
      if (returncode p1 =? 0)%Z then
        extract_first_60_seconds e a o fs
        = (Ok o, put o (wrote p1) fs,
           [Print (MsgExtracting a); Subprocess (copy_cmd a o); Print (MsgSavedTo o)])
      else
        match ffmpeg e (reencode_cmd a o) (put o (wrote p1) fs !! a) with
        | SpawnError x w =>
            extract_first_60_seconds e a o fs
            = (Raise x, put o w (put o (wrote p1) fs),
               [Print (MsgExtracting a); Subprocess (copy_cmd a o);
                Print MsgCopyFailed; Subprocess (reencode_cmd a o)])
        | Completed p2 =>
            if (returncode p2 =? 0)%Z then
              extract_first_60_seconds e a o fs
              = (Ok o, put o (wrote p2) (put o (wrote p1) fs),
                 [Print (MsgExtracting a); Subprocess (copy_cmd a o);
                  Print MsgCopyFailed; Subprocess (reencode_cmd a o);
                  Print (MsgSavedTo o)])
            else
              extract_first_60_seconds e a o fs
              = (Raise (Exception_ (lit "ffmpeg failed: " ++ stderr p2)),
                 put o (wrote p2) (put o (wrote p1) fs),
                 [Print (MsgExtracting a); Subprocess (copy_cmd a o);
                  Print MsgCopyFailed; Subprocess (reencode_cmd a o)])
        end
  end.
Proof.
  unfold extract_first_60_seconds, subprocess_run, mbind, print, ret, raise. cbn [printable].
  cbn [nth List.last copy_cmd reencode_cmd].
  destruct (ffmpeg e _ (fs !! a)) as [p1|x1 w1]; [| reflexivity].
  destruct (returncode p1 =? 0)%Z; cbn [negb]; [reflexivity |].
  destruct (ffmpeg e _ (put o (wrote p1) fs !! a)) as [p2|x2 w2]; [| reflexivity].
  destruct (returncode p2 =? 0)%Z; reflexivity.
Qed.

(** X6.  The extractor returns exactly when the stream copy ends with
    return code 0, or ends with another code and the re-encoding then ends
    with 0; what it returns is the destination path, and its last line
    announces it. *)
Theorem extract_first_60_seconds_succeeds_iff e a o fs :
  let '(r, fs', evs) := extract_first_60_seconds e a o fs in
  ((exists v, r = Ok v)
   <-> (exists p, ffmpeg e (copy_cmd a o) (fs !! a) = Completed p
                  /\ returncode p = 0%Z)
       \/ (exists p1 p2,
             ffmpeg e (copy_cmd a o) (fs !! a) = Completed p1
             /\ returncode p1 <> 0%Z
             /\ ffmpeg e (reencode_cmd a o) (put o (wrote p1) fs !! a) = Completed p2
             /\ returncode p2 = 0%Z))
  /\ (forall v, r = Ok v ->
        v = o /\ List.last evs (Print MsgCopyFailed) = Print (MsgSavedTo o)).
Proof.
  pose proof (extract_cases e a o fs) as H.
  destruct (ffmpeg e (copy_cmd a o) (fs !! a)) as [p1|x1 w1].
  - destruct (returncode p1 =? 0)%Z eqn:Hrc1.
    + rewrite H. apply Z.eqb_eq in Hrc1. split.
      * split; [| eauto]. intros _. left. exists p1. now split.
      * intros v [= <-]. split; reflexivity.
    + apply Z.eqb_neq in Hrc1.
      destruct (ffmpeg e (reencode_cmd a o) (put o (wrote p1) fs !! a))
        as [p2|x2 w2] eqn:H2.
      * destruct (returncode p2 =? 0)%Z eqn:Hrc2; rewrite H.
        -- apply Z.eqb_eq in Hrc2. split.
           ++ split; [| eauto].
              intros _. right. exists p1, p2. now repeat split.
           ++ intros v [= <-]. split; reflexivity.
        -- apply Z.eqb_neq in Hrc2. split.
           ++ split; [intros (v & [=]) |].
              intros [(p & [= <-] & Hp) | (q1 & q2 & [= <-] & _ & Hq2 & Hq)];
                [contradiction |].
              rewrite H2 in Hq2. injection Hq2 as <-. contradiction.
           ++ intros v [=].
      * rewrite H. split.
        -- split; [intros (v & [=]) |].
           intros [(p & [= <-] & Hp) | (q1 & q2 & [= <-] & _ & Hq2 & _)];
             [contradiction |].
           rewrite H2 in Hq2. discriminate.
        -- intros v [=].
  - rewrite H. split.
    + split; [intros (v & [=]) |].
      intros [(p & [=] & _) | (q1 & q2 & [=] & _)].
    + intros v [=].
Qed.

Lemma extract_first_60_seconds_succeeds_iff_example :
  exists v, (extract_first_60_seconds env_fine audio_file temp_audio fs_input).1.1 = Ok v.
Proof.
  pose proof (extract_first_60_seconds_succeeds_iff
                env_fine audio_file temp_audio fs_input) as H.
  destruct (extract_first_60_seconds env_fine audio_file temp_audio fs_input)
    as [[r fs'] evs].
  apply H. left. eexists. split; reflexivity.
Defined.

Lemma extract_only_destination e a o fs k :
  k <> o ->
  (extract_first_60_seconds e a o fs).1.2 !! k = fs !! k.
Proof.
  intros Hk. assert (Hk' : o <> k) by congruence.
  pose proof (extract_cases e a o fs) as H.
  destruct (ffmpeg e (copy_cmd a o) (fs !! a)) as [p1|x1 w1].
  - destruct (returncode p1 =? 0)%Z.
    + rewrite H. cbn [fst snd]. now apply lookup_put_ne.
    + destruct (ffmpeg e (reencode_cmd a o) (put o (wrote p1) fs !! a)) as [p2|x2 w2].
      * destruct (returncode p2 =? 0)%Z; rewrite H; cbn [fst snd];
          now rewrite !lookup_put_ne.
      * rewrite H. cbn [fst snd]. now rewrite !lookup_put_ne.
  - rewrite H. cbn [fst snd]. now apply lookup_put_ne.
Qed.

(** X7.  The extractor changes no file but the one at the destination
    path. *)
Theorem extract_first_60_seconds_frame e a o fs k :
  k <> o ->
  (extract_first_60_seconds e a o fs).1.2 !! k = fs !! k.
Proof. apply extract_only_destination. Qed.

Lemma extract_first_60_seconds_frame_example :
  (extract_first_60_seconds env_fine audio_file temp_audio fs_with_output).1.2
    !! output_json
  = fs_with_output !! output_json.
Proof.
  apply (extract_first_60_seconds_frame env_fine audio_file temp_audio).
  discriminate.
Defined.

(** X8.  When the stream copy fails and the re-encoding writes the
    destination, the destination holds what the re-encoding wrote, whatever
    the failed copy had left there. *)
Theorem extract_first_60_seconds_overwrites e a o fs p1 p2 c :
  ffmpeg e (copy_cmd a o) (fs !! a) = Completed p1 ->
  returncode p1 <> 0%Z ->
  ffmpeg e (reencode_cmd a o) (put o (wrote p1) fs !! a) = Completed p2 ->
  wrote p2 = Some c ->
  (extract_first_60_seconds e a o fs).1.2 !! o = Some c.
Proof.
  intros H1 Hrc1 H2 Hc.
  pose proof (extract_cases e a o fs) as H. rewrite H1 in H.
  apply Z.eqb_neq in Hrc1. rewrite Hrc1, H2 in H.
  destruct (returncode p2 =? 0)%Z; rewrite H; cbn [fst snd];
    rewrite Hc; cbn [put]; apply lookup_insert_eq.
Qed.

Lemma extract_first_60_seconds_overwrites_example :
  (extract_first_60_seconds env_fallback audio_file temp_audio fs_input).1.2
    !! temp_audio
  = Some sample_clip.
Proof.
  apply (extract_first_60_seconds_overwrites env_fallback audio_file temp_audio
           fs_input (mkProc 1 (lit "codec not supported") (Some [73; 68]))
           (mkProc 0 [] (Some sample_clip)));
    [reflexivity | discriminate | reflexivity | reflexivity].
Defined.

(** ** The JSON encoder: when it raises *)

(** ** Orchestrator: the report *)












(** ** Orchestrator: the run that succeeds *)




(** ** Orchestrator: what a run leaves alone *)

(** X14.  The engine is loaded or asked to transcribe only in a run whose
    input was there and whose extraction had returned. *)
Theorem main_engine_after_extraction e fs :
  Exists (fun ev => engine_event ev = true) (main e fs).2 ->
  is_Some (fs !! audio_file)
  /\ exists v, (extract_first_60_seconds e audio_file temp_audio fs).1.1 = Ok v.
Proof.
  intros Hex.
  assert (Hquiet : forall evs, Forall quiet evs ->
            Exists (fun ev => engine_event ev = true) evs -> False).
  { intros evs Hq He. apply Exists_exists in He as (ev & Hin & Hev).
    rewrite Forall_forall in Hq. destruct (Hq ev Hin) as [Hne _]. congruence. }
  destruct (fs !! audio_file) as [a0|] eqn:Hin.
  - assert (His : is_Some (fs !! audio_file)) by (rewrite Hin; eauto).
    split; [eauto |].
    destruct (extract_run e audio_file temp_audio (Some a0) audio_ne_temp)
      as (r1 & wt & ev1 & Hrun & Hq & _).
    specialize (Hrun fs Hin). rewrite Hrun. cbn [fst].
    destruct r1 as [v|x]; [eauto |]. exfalso.
    rewrite (main_run e fs _ _ _ His (main_try_extract_raises _ _ _ _ _ Hrun)) in Hex.
    cbn [snd] in Hex. apply (Hquiet _ (Forall_app_2 _ _ _ Hq (cleanup_quiet _)) Hex).
  - exfalso. revert Hex. unfold main. rewrite bool_decide_eq_false_2.
    + cbn [snd]. apply Hquiet. repeat constructor.
    + rewrite Hin. intros [y Hy]. discriminate.
Qed.

Lemma main_engine_after_extraction_example :
  is_Some (fs_input !! audio_file)
  /\ exists v,
       (extract_first_60_seconds env_fine audio_file temp_audio fs_input).1.1 = Ok v.
Proof.
  apply (main_engine_after_extraction env_fine fs_input).
  apply Exists_exists. exists (Transcribe temp_audio).
  split; [| reflexivity]. apply list_elem_of_In. vm_compute. tauto.
Defined.

(** ** Orchestrator: failures after extraction *)






(** ** The script: what exit status 0 means *)




(** ** Transcription Engine *)

(** X18.  [transcribe_audio] loads the model named ["base"] and, only when
    that succeeds, asks the engine exactly once, for the file at the given
    path; it returns the engine's answer as it is and lets the exceptions
    of loading and of transcription through. *)
Theorem transcribe_audio_run e path fs :
  let '(r, fs', evs) := transcribe_audio e path fs in
  match load_model e with
  | Some x =>
      r = Raise x /\ evs = [Print MsgLoading; LoadModel "base"]
  | None =>
      r = transcribe e (fs !! path)
      /\ evs = [Print MsgLoading; LoadModel "base";
                Print (MsgTranscribing path); Print MsgMayTakeAMinute;
                Transcribe path]
  end.
Proof.
  unfold transcribe_audio, mbind, print, whisper_load_model, model_transcribe, ret.
  cbn [printable].
  destruct (load_model e) as [x|]; [split; reflexivity |].
  destruct (transcribe e (fs !! path)) as [res|x]; split; reflexivity.
Qed.

Lemma transcribe_audio_run_example :
  (transcribe_audio env_fine temp_audio fs_input).1.1 = Ok scenario_result
  /\ (transcribe_audio env_engine_fails temp_audio fs_input).1.1 = Raise ValueError.
Proof.
  split.
  - pose proof (transcribe_audio_run env_fine temp_audio fs_input) as H.
    destruct (transcribe_audio env_fine temp_audio fs_input) as [[r fs'] evs].
    exact (proj1 H).
  - pose proof (transcribe_audio_run env_engine_fails temp_audio fs_input) as H.
    destruct (transcribe_audio env_engine_fails temp_audio fs_input) as [[r fs'] evs].
    exact (proj1 H).
Defined.

(** ** Orchestrator: a failure after the output is written *)




